(** * ChatNode: the session and broadcast engine of [server.js]

    A shallow embedding of the realtime chat server: the in-memory message
    log with its write-through copy on disk, the registry of connected users,
    the socket.io event handlers and the two HTTP routes that touch the log.

    Conventions of the embedding.
    - A JavaScript string is the list of its UTF-16 code units.
    - A payload received from a client is a string or some value that is not
      a string; of the latter the code only ever observes its truthiness and
      its string conversion, so that is all the model keeps of it. The
      conversion may fail: an object whose own [toString] and [valueOf] are
      not callable has none, and converting it throws a TypeError.
    - [users] is a plain JS object keyed by socket id. Its own keys are
      enumerated in insertion order, so it is an association list. Socket ids
      are the 20-character tokens of socket.io: never array indices and never
      names of [Object.prototype].
    - [uuidv4()], [new Date().toISOString()] and the failure of
      [fs.writeFileSync] are inputs of each handler run, gathered in [env].
    - A handler is a computation over the process state that returns or
      throws and records what it sends, answers and logs. What a socket
      listener throws is caught by nobody and ends the process; what a route
      handler throws is caught by express, which answers 500. *)

From Stdlib Require Import String Ascii List ZArith NArith Bool Lia.
Import ListNotations.

Set Implicit Arguments.

(** ** JavaScript strings and values *)

Definition jsstring := list N.

(** A string literal of the program text. *)
Definition lit (s : string) : jsstring :=
  map N_of_ascii (list_ascii_of_string s).

Fixpoint str_eqb (a b : jsstring) : bool :=
  match a, b with
  | [], [] => true
  | x :: a', y :: b' => N.eqb x y && str_eqb a' b'
  | _, _ => false
  end.

(** WhiteSpace and LineTerminator code points of ECMAScript, the characters
    [String.prototype.trim] and [parseInt] strip. *)
Definition is_white_space (c : N) : bool :=
  existsb (N.eqb c)
    [9; 10; 11; 12; 13; 32; 160; 5760; 8232; 8233; 8239; 8287; 12288; 65279]%N
  || (N.leb 8192 c && N.leb c 8202).

Fixpoint trim_start (s : jsstring) : jsstring :=
  match s with
  | c :: s' => if is_white_space c then trim_start s' else s
  | [] => []
  end.

Definition trim (s : jsstring) : jsstring :=
  rev (trim_start (rev (trim_start s))).

Fixpoint starts_with (p s : jsstring) : bool :=
  match p, s with
  | [], _ => true
  | x :: p', y :: s' => N.eqb x y && starts_with p' s'
  | _ :: _, [] => false
  end.

(** [s.substring(k)] for a constant [k >= 0]. *)
Definition substring_from (k : nat) (s : jsstring) : jsstring := skipn k s.

(** A string, or a value that is not a string, known by its truthiness and
    by its string conversion, [None] when it has none. Only objects have
    none, and objects are truthy. *)
Inductive jsval :=
| JStr (s : jsstring)
| JOther (truthy : bool) (text : option jsstring).

Definition js_undefined : jsval := JOther false (Some (lit "undefined")).
Definition js_null : jsval := JOther false (Some (lit "null")).

(** An object such as [{toString: 0}]: truthy, without string conversion. *)
Definition js_no_text : jsval := JOther true None.

(** ToBoolean. *)
Definition truthy (v : jsval) : bool :=
  match v with
  | JStr [] => false
  | JStr (_ :: _) => true
  | JOther b _ => b
  end.

(** ToString, as in a template literal: [None] where the conversion
    throws. *)
Definition to_string (v : jsval) : option jsstring :=
  match v with
  | JStr s => Some s
  | JOther _ t => t
  end.

(** ** parseInt and Array.prototype.slice *)

Definition digit_value (c : N) : option Z :=
  if (N.leb 48 c && N.leb c 57)%bool then Some (Z.of_N c - 48)%Z
  else if (N.leb 97 c && N.leb c 122)%bool then Some (Z.of_N c - 87)%Z
  else if (N.leb 65 c && N.leb c 90)%bool then Some (Z.of_N c - 55)%Z
  else None.

(** The longest prefix of digits of radix [r], read as a number. [None] when
    there is no digit at all. *)
Fixpoint read_digits (r : Z) (acc : option Z) (s : jsstring) : option Z :=
  match s with
  | [] => acc
  | c :: s' =>
      match digit_value c with
      | Some d =>
          if (d <? r)%Z
          then read_digits r
                 (Some (match acc with Some a => a * r + d | None => d end)%Z) s'
          else acc
      | None => acc
      end
  end.

Definition strip_sign (s : jsstring) : Z * jsstring :=
  match s with
  | 45%N :: s' => ((-1)%Z, s')
  | 43%N :: s' => (1%Z, s')
  | _ => (1%Z, s)
  end.

Definition strip_hex_prefix (s : jsstring) : Z * jsstring :=
  match s with
  | 48%N :: 120%N :: s' => (16%Z, s')
  | 48%N :: 88%N :: s' => (16%Z, s')
  | _ => (10%Z, s)
  end.

(** [parseInt] without a radix, on the string its argument converts to.
    [None] is NaN. The result is kept as an exact integer: a JS number
    rounds it beyond 2^53, where it still exceeds every array length, so
    [slice] cannot tell the difference. *)
Definition parseInt (text : jsstring) : option Z :=
  let (sign, s1) := strip_sign (trim_start text) in
  let (radix, s2) := strip_hex_prefix s1 in
  match read_digits radix None s2 with
  | Some n => Some (sign * n)%Z
  | None => None
  end.

(** [x || d] on the result of [parseInt]: NaN and 0 are falsy. *)
Definition or_default (x : option Z) (d : Z) : Z :=
  match x with
  | Some n => if (n =? 0)%Z then d else n
  | None => d
  end.

(** [arr.slice(start)]: a negative start counts from the end and is clamped
    at 0, a non-negative one is clamped at the length. *)
Definition slice {A} (arr : list A) (start : Z) : list A :=
  let len := Z.of_nat (length arr) in
  let k := if (start <? 0)%Z then Z.max (len + start) 0 else Z.min start len in
  skipn (Z.to_nat k) arr.

(** ** Plain objects used as maps *)

Definition jsobject (V : Type) := list (jsstring * V).

Fixpoint obj_get {V} (o : jsobject V) (k : jsstring) : option V :=
  match o with
  | [] => None
  | (k', v) :: o' => if str_eqb k' k then Some v else obj_get o' k
  end.

(** [o[k] = v]: an existing key keeps its place, a new one goes last. *)
Fixpoint obj_set {V} (o : jsobject V) (k : jsstring) (v : V) : jsobject V :=
  match o with
  | [] => [(k, v)]
  | (k', v') :: o' =>
      if str_eqb k' k then (k', v) :: o' else (k', v') :: obj_set o' k v
  end.

(** [delete o[k]]. *)
Definition obj_delete {V} (o : jsobject V) (k : jsstring) : jsobject V :=
  filter (fun kv => negb (str_eqb (fst kv) k)) o.

(** [Object.values(o)]. *)
Definition obj_values {V} (o : jsobject V) : list V := map snd o.

(** [o[k]] as a value: a missing key reads as [undefined]. *)
Definition obj_read (o : jsobject jsval) (k : jsstring) : jsval :=
  match obj_get o k with
  | Some v => v
  | None => js_undefined
  end.

(** ** Events of the message log *)

(** [fileInfo] of an upload. *)
Record fileInfo := {
  fi_id : jsstring;
  fi_filename : jsstring;
  fi_originalname : jsstring;
  fi_path : jsstring;
  fi_size : Z;
  fi_mimetype : jsstring
}.

(** The three shapes of a stored message, told apart by their [type] field:
    'chat', 'file' and 'system'. *)
Inductive Event :=
| Chat (id : jsstring) (username : jsval) (message : jsstring)
       (timestamp : jsstring)
| File (id : jsstring) (username : jsval) (info : fileInfo)
       (timestamp : jsstring)
| System (id : jsstring) (message : jsstring) (timestamp : jsstring).

(** ** Process state *)

Record state := {
  messages : list Event;          (* let messages = [] *)
  users : jsobject jsval;         (* const users = {} *)
  connected : list jsstring;      (* sockets of the namespace *)
  disk : option (list Event)      (* the log as last written to
                                     MESSAGES_FILE by this process *)
}.

Definition set_messages (f : list Event -> list Event) (st : state) : state :=
  {| messages := f (messages st); users := users st;
     connected := connected st; disk := disk st |}.

Definition set_users (f : jsobject jsval -> jsobject jsval) (st : state)
  : state :=
  {| messages := messages st; users := f (users st);
     connected := connected st; disk := disk st |}.

Definition set_connected (f : list jsstring -> list jsstring) (st : state)
  : state :=
  {| messages := messages st; users := users st;
     connected := f (connected st); disk := disk st |}.

Definition set_disk (d : option (list Event)) (st : state) : state :=
  {| messages := messages st; users := users st;
     connected := connected st; disk := d |}.

(** Start of the process. [file] is what [JSON.parse] makes of the file
    when it exists and parses, taken to be an array of events, which is all
    [saveMessages] ever writes; [None] when there is no file or reading it
    throws. The log starts as that array, or empty; the registry is empty,
    nobody is connected and this process has written nothing yet. What
    [JSON.parse] gives back need not be the array that was written. *)
Definition boot (file : option (list Event)) : state :=
  {| messages := match file with Some l => l | None => [] end;
     users := []; connected := []; disk := None |}.

(** ** What a handler sends, answers and logs *)

Inductive scope :=
| ToAll                         (* io.emit *)
| ToOthers (origin : jsstring)  (* socket.broadcast.emit *)
| ToOne (target : jsstring).    (* socket.emit *)

Inductive payload :=
| PEvent (e : Event)
| PEvents (l : list Event)
| PValue (v : jsval)
| PValues (l : list jsval).

Inductive body :=
| JsonEvents (l : list Event)          (* res.json(recentMessages) *)
| JsonUploaded (info : fileInfo)       (* { success: true, fileInfo } *)
| JsonFailure (message : string)       (* { success: false, message } *)
| ErrorPage.                           (* express's answer to a throw *)

Inductive output :=
| Emit (sc : scope) (name : string) (p : payload)
| Respond (status : Z) (b : body)
| ConsoleLog (text : jsstring)
| ConsoleError (label : string) (err : jsstring).

(** Modelled from the spec: the fan-out of socket.io ([io.emit],
    [socket.broadcast.emit], [socket.emit]) is library code outside the
    repository. [ToAll] reaches every connected client, [ToOthers] every
    connected client except the origin, [ToOne] exactly one client. *)
Definition recipients (conn : list jsstring) (sc : scope) : list jsstring :=
  match sc with
  | ToAll => conn
  | ToOthers origin => filter (fun c => negb (str_eqb c origin)) conn
  | ToOne target => filter (fun c => str_eqb c target) conn
  end.

(** ** Handler computations *)

Inductive outcome (A : Type) :=
| Returned (a : A) (st : state) (out : list output)
| Thrown (err : jsstring) (st : state) (out : list output).

Arguments Returned {A} a st out.
Arguments Thrown {A} err st out.

Definition M (A : Type) := state -> outcome A.

Definition ret {A} (a : A) : M A := fun st => Returned a st [].

Definition bind {A B} (m : M A) (f : A -> M B) : M B :=
  fun st =>
    match m st with
    | Returned a st1 o1 =>
        match f a st1 with
        | Returned b st2 o2 => Returned b st2 (o1 ++ o2)
        | Thrown e st2 o2 => Thrown e st2 (o1 ++ o2)
        end
    | Thrown e st1 o1 => Thrown e st1 o1
    end.

Declare Scope js_scope.
Delimit Scope js_scope with js.
Notation "x <- m ;; k" := (bind m (fun x => k))
  (at level 61, m at next level, right associativity) : js_scope.
Notation "m ;; k" := (bind m (fun _ => k))
  (at level 61, right associativity) : js_scope.
Open Scope js_scope.

Definition read {A} (f : state -> A) : M A := fun st => Returned (f st) st [].
Definition modify (f : state -> state) : M unit :=
  fun st => Returned tt (f st) [].
Definition tell (o : output) : M unit := fun st => Returned tt st [o].
Definition throw {A} (err : jsstring) : M A := fun st => Thrown err st [].

(** The string conversion of a template literal, which throws where the
    value has none. *)
Definition js_to_string (v : jsval) : M jsstring :=
  match to_string v with
  | Some text => ret text
  | None => throw (lit "TypeError: Cannot convert object to primitive value")
  end.

(** [try { body } catch (err) { handler }]. *)
Definition try_catch {A} (body : M A) (handler : jsstring -> M A) : M A :=
  fun st =>
    match body st with
    | Returned a st1 o1 => Returned a st1 o1
    | Thrown e st1 o1 =>
        match handler e st1 with
        | Returned a st2 o2 => Returned a st2 (o1 ++ o2)
        | Thrown e' st2 o2 => Thrown e' st2 (o1 ++ o2)
        end
    end.

Definition emit (sc : scope) (name : string) (p : payload) : M unit :=
  tell (Emit sc name p).

Definition final_state {A} (r : outcome A) : state :=
  match r with
  | Returned _ st _ => st
  | Thrown _ st _ => st
  end.

Definition outputs {A} (r : outcome A) : list output :=
  match r with
  | Returned _ _ o => o
  | Thrown _ _ o => o
  end.

Definition returns {A} (r : outcome A) : bool :=
  match r with
  | Returned _ _ _ => true
  | Thrown _ _ _ => false
  end.

(** ** The environment of one handler run *)

Record env := {
  uuid : jsstring;             (* uuidv4() *)
  uuid' : jsstring;            (* the second uuidv4() of an upload *)
  now : jsstring;              (* new Date().toISOString() *)
  fs_error : option jsstring   (* what fs.writeFileSync throws, if it does *)
}.

Record socket := {
  sock_id : jsstring;          (* socket.id *)
  remoteAddress : jsstring     (* socket.request.connection.remoteAddress *)
}.

(** [req.file] as multer fills it. *)
Record upload_file := {
  filename : jsstring;
  originalname : jsstring;
  size : Z;
  mimetype : jsstring
}.

(** ** The program *)

(** [fs.writeFileSync(MESSAGES_FILE, JSON.stringify(messages, null, 2))]. *)
Definition writeFileSync (e : env) (content : list Event) : M unit :=
  match fs_error e with
  | Some err => throw err
  | None => modify (set_disk (Some content))
  end.

Definition saveMessages (e : env) : M unit :=
  try_catch
    (content <- read messages ;; writeFileSync e content)
    (fun err => tell (ConsoleError "Error saving messages:" err)).

(** [messages.push(m)]. *)
Definition push (m : Event) : M unit :=
  modify (set_messages (fun l => l ++ [m])).

(** [let clientIp = ...remoteAddress], less the IPv4-mapped prefix. *)
Definition clientIp (s : socket) : jsstring :=
  if starts_with (lit "::ffff:") (remoteAddress s)
  then substring_from 7 (remoteAddress s)
  else remoteAddress s.

(** app.get('/api/messages') *)
Definition get_api_messages (query_limit : jsval) : M unit :=
  text <- js_to_string query_limit ;;
  let limit := or_default (parseInt text) 50 in
  l <- read messages ;;
  let recentMessages := slice l (- limit) in
  tell (Respond 200 (JsonEvents recentMessages)).

(** app.post('/upload', upload.single('file'), ...) *)
Definition post_upload (e : env) (file : option upload_file)
    (body_username : jsval) : M unit :=
  match file with
  | Some f =>
      let info :=
        {| fi_id := uuid e;
           fi_filename := filename f;
           fi_originalname := originalname f;
           fi_path := lit "/uploads/" ++ filename f;
           fi_size := size f;
           fi_mimetype := mimetype f |} in
      let fileMessage := File (uuid' e) body_username info (now e) in
      push fileMessage ;;
      saveMessages e ;;
      emit ToAll "new-file" (PEvent fileMessage) ;;
      tell (Respond 200 (JsonUploaded info))
  | None =>
      tell (Respond 400 (JsonFailure "No file uploaded"))
  end.

(** socket.on('user-join', (username) => ...) *)
Definition on_user_join (e : env) (s : socket) (username : jsval) : M unit :=
  modify (set_users (fun u => obj_set u (sock_id s) username)) ;;
  name <- js_to_string username ;;
  let joinMessage :=
    System (uuid e)
      (name ++ lit " joined the chat (" ++ clientIp s ++ lit ")")
      (now e) in
  tell (ConsoleLog (name ++ lit " connected from IP: " ++ clientIp s)) ;;
  push joinMessage ;;
  saveMessages e ;;
  emit (ToOthers (sock_id s)) "user-joined" (PValue username) ;;
  emit (ToOthers (sock_id s)) "system-message" (PEvent joinMessage) ;;
  u <- read users ;;
  emit ToAll "users-list" (PValues (obj_values u)) ;;
  l <- read messages ;;
  emit (ToOne (sock_id s)) "message-history" (PEvents (slice l (-50))).

(** socket.on('get-users', ...) *)
Definition on_get_users (s : socket) : M unit :=
  u <- read users ;;
  emit (ToOne (sock_id s)) "users-list" (PValues (obj_values u)).

(** socket.on('chat-message', (message) => ...). [message.trim()] is a
    method of strings only: anything else a client can send has no callable
    [trim], and the call throws a TypeError. *)
Definition on_chat_message (e : env) (s : socket) (message : jsval)
  : M unit :=
  u <- read users ;;
  let username := obj_read u (sock_id s) in
  if negb (truthy username) then ret tt
  else
    match message with
    | JStr text =>
        if negb (truthy (JStr (trim text))) then ret tt
        else
          let messageObj := Chat (uuid e) username text (now e) in
          push messageObj ;;
          saveMessages e ;;
          emit ToAll "chat-message" (PEvent messageObj)
    | JOther _ _ => throw (lit "TypeError: message.trim is not a function")
    end.

(** socket.on('typing', ...) *)
Definition on_typing (s : socket) : M unit :=
  u <- read users ;;
  let username := obj_read u (sock_id s) in
  if truthy username
  then emit (ToOthers (sock_id s)) "typing" (PValue username)
  else ret tt.

(** socket.on('stop-typing', ...) *)
Definition on_stop_typing (s : socket) : M unit :=
  u <- read users ;;
  let username := obj_read u (sock_id s) in
  if truthy username
  then emit (ToOthers (sock_id s)) "stop typing" (PValue username)
  else ret tt.

(** socket.on('disconnect', ...) *)
Definition on_disconnect (e : env) (s : socket) : M unit :=
  u <- read users ;;
  let username := obj_read u (sock_id s) in
  if truthy username then
    name <- js_to_string username ;;
    let leaveMessage :=
      System (uuid e) (name ++ lit " left the chat") (now e) in
    push leaveMessage ;;
    saveMessages e ;;
    emit (ToOthers (sock_id s)) "user-left" (PValue username) ;;
    emit (ToOthers (sock_id s)) "system-message" (PEvent leaveMessage) ;;
    modify (set_users (fun u => obj_delete u (sock_id s))) ;;
    u' <- read users ;;
    emit ToAll "users-list" (PValues (obj_values u'))
  else ret tt.

(** ** Inbound events and the event loop *)

Inductive socket_event :=
| UserJoin (username : jsval)
| GetUsers
| ChatMessage (message : jsval)
| Typing
| StopTyping
| Disconnect.

Inductive request :=
| Connection (s : socket)                  (* io.on('connection') *)
| OnSocket (s : socket) (ev : socket_event)
| PostUpload (file : option upload_file) (body_username : jsval)
| GetApiMessages (query_limit : jsval).

(** A route of express: what the handler throws is caught by the router,
    whose default error handler answers with status 500. *)
Definition express_route (handler : M unit) : M unit :=
  try_catch handler (fun _ => tell (Respond 500 ErrorPage)).

(** One turn of the event loop. socket.io adds a socket to the namespace
    before the connection callback runs and removes it before the
    'disconnect' listeners run. *)
Definition step (e : env) (r : request) : M unit :=
  match r with
  | Connection s =>
      modify (set_connected (fun c => c ++ [sock_id s]))
  | OnSocket s (UserJoin username) => on_user_join e s username
  | OnSocket s GetUsers => on_get_users s
  | OnSocket s (ChatMessage message) => on_chat_message e s message
  | OnSocket s Typing => on_typing s
  | OnSocket s StopTyping => on_stop_typing s
  | OnSocket s Disconnect =>
      modify (set_connected
                (filter (fun c => negb (str_eqb c (sock_id s))))) ;;
      on_disconnect e s
  | PostUpload file body_username =>
      express_route (post_upload e file body_username)
  | GetApiMessages query_limit =>
      express_route (get_api_messages query_limit)
  end.

(** A run of the process: the turns follow one another until a socket
    listener throws; nothing catches that, and the process ends there. *)
Fixpoint run (trace : list (env * request)) : M unit :=
  match trace with
  | [] => ret tt
  | (e, r) :: trace' => step e r ;; run trace'
  end.

(** Who receives what: each emission expanded over the sockets connected
    in [st]. *)
Definition deliveries (st : state) (out : list output)
  : list (jsstring * string * payload) :=
  flat_map
    (fun o =>
       match o with
       | Emit sc name p =>
           map (fun c => (c, name, p)) (recipients (connected st) sc)
       | _ => []
       end) out.

(** The 'message-history' pushes found in a list of outputs. *)
Definition replays (out : list output) : list (jsstring * list Event) :=
  flat_map
    (fun o =>
       match o with
       | Emit (ToOne c) "message-history" (PEvents l) => [(c, l)]
       | _ => []
       end) out.

(** The two statements by which every handler appends to the log:
    [messages.push(m); saveMessages();]. *)
Definition Append (e : env) (m : Event) : M unit :=
  push m ;; saveMessages e.

(** A sequence of appends, each with its own environment. *)
Fixpoint Append_all (calls : list (env * Event)) : M unit :=
  match calls with
  | [] => ret tt
  | (e, m) :: calls' => Append e m ;; Append_all calls'
  end.

(** [messages.slice(-n)], the bounded read of the log used by the history
    route and by the replay on join. *)
Definition RecentSlice (n : Z) (st : state) : list Event :=
  slice (messages st) (- n).

(** State and console output of [saveMessages]. *)
Definition saved (e : env) (st : state) : state :=
  match fs_error e with
  | Some _ => st
  | None => set_disk (Some (messages st)) st
  end.

Definition save_log (e : env) : list output :=
  match fs_error e with
  | Some err => [ConsoleError "Error saving messages:" err]
  | None => []
  end.

(** The same environment with a disk that takes the write. *)
Definition writable (e : env) : env :=
  {| uuid := uuid e; uuid' := uuid' e; now := now e; fs_error := None |}.

(** The join and leave notices as the handlers build them, from the string
    the name converts to. *)
Definition joinMessage (e : env) (s : socket) (name : jsstring) : Event :=
  System (uuid e)
    (name ++ lit " joined the chat (" ++ clientIp s ++ lit ")")
    (now e).

Definition leaveMessage (e : env) (name : jsstring) : Event :=
  System (uuid e) (name ++ lit " left the chat") (now e).

(** Requests by which a given connection (re)declares or gives up its
    name. *)
Definition is_join_of (c : jsstring) (r : request) : bool :=
  match r with
  | OnSocket s (UserJoin _) => str_eqb (sock_id s) c
  | _ => false
  end.

Definition is_disconnect_of (c : jsstring) (r : request) : bool :=
  match r with
  | OnSocket s Disconnect => str_eqb (sock_id s) c
  | _ => false
  end.

(** The outbound name of a typing indicator: 'typing' answers 'typing',
    'stop typing' answers 'stop-typing'. *)
Definition indicator_name (ev : socket_event) : string :=
  match ev with
  | StopTyping => "stop typing"
  | _ => "typing"
  end.

Definition has_text (v : jsval) : bool :=
  match to_string v with
  | Some _ => true
  | None => false
  end.

(** The turns that end the process: a join under a name without string
    conversion; a chat message that is not a string, from a connection
    with a truthy registered name; the disconnect of a connection whose
    registered name is truthy and without string conversion. A route that
    throws is answered by express and ends nothing. *)
Definition throws (r : request) (st : state) : bool :=
  match r with
  | OnSocket s (UserJoin username) => negb (has_text username)
  | OnSocket s (ChatMessage (JOther _ _)) =>
      truthy (obj_read (users st) (sock_id s))
  | OnSocket s Disconnect =>
      truthy (obj_read (users st) (sock_id s))
      && negb (has_text (obj_read (users st) (sock_id s)))
  | _ => false
  end.

(** ** The specification's reading of a bounded slice *)

(** "The last [min(n, length)] events in original arrival order." *)
Definition spec_last {A} (n : Z) (l : list A) : list A :=
  let len := Z.of_nat (length l) in
  skipn (Z.to_nat (len - Z.min n len)) l.

(** ** Concrete runs used below *)

Definition env_at (k : nat) : env :=
  {| uuid := lit "id-" ++ [N.of_nat k];
     uuid' := lit "file-" ++ [N.of_nat k];
     now := lit "2024-01-01T00:00:" ++ [N.of_nat k];
     fs_error := None |}.

Definition env_disk_full (k : nat) : env :=
  {| uuid := uuid (env_at k); uuid' := uuid' (env_at k); now := now (env_at k);
     fs_error := Some (lit "ENOSPC") |}.

Definition sockA : socket :=
  {| sock_id := lit "sockA"; remoteAddress := lit "::ffff:10.0.0.1" |}.
Definition sockB : socket :=
  {| sock_id := lit "sockB"; remoteAddress := lit "10.0.0.2" |}.

Definition alice : jsval := JStr (lit "alice").
Definition bob : jsval := JStr (lit "bob").

(** A and B connected, A joined as alice. *)
Definition lobby : state :=
  final_state
    (run [(env_at 0, Connection sockA);
          (env_at 0, OnSocket sockA (UserJoin alice));
          (env_at 0, Connection sockB)] (boot None)).

(** Sixty chat messages sent by alice, one after the other. *)
Definition sixty_chats : list (env * request) :=
  map (fun k => (env_at k, OnSocket sockA (ChatMessage (JStr (lit "hi")))))
      (seq 1 60).

Definition sent_chats : list Event :=
  map (fun k => Chat (uuid (env_at k)) alice (lit "hi") (now (env_at k)))
      (seq 1 60).

Definition after_sixty : state := final_state (run sixty_chats lobby).

(** What goes on after sockA joined under the empty name: B arrives and
    joins, A tries to chat and to signal typing, A leaves, B asks who is
    there. *)
Definition after_empty_join : list (env * request) :=
  [(env_at 1, Connection sockB);
   (env_at 2, OnSocket sockB (UserJoin bob));
   (env_at 3, OnSocket sockA (ChatMessage (JStr (lit "hi"))));
   (env_at 4, OnSocket sockA Typing);
   (env_at 5, OnSocket sockA Disconnect);
   (env_at 6, OnSocket sockB GetUsers)].

(** ** What a turn appends *)

(** [!message.trim()] on a string. *)
Definition blank (text : jsstring) : bool := negb (truthy (JStr (trim text))).

(** The [fileInfo] an upload builds from [req.file]. *)
Definition upload_info (e : env) (f : upload_file) : fileInfo :=
  {| fi_id := uuid e;
     fi_filename := filename f;
     fi_originalname := originalname f;
     fi_path := lit "/uploads/" ++ filename f;
     fi_size := size f;
     fi_mimetype := mimetype f |}.

(** The events a request adds to the log in a given state: the object the
    handler builds on the branch it takes, none on the others and none
    where it throws first. *)
Definition appended (e : env) (r : request) (st : state) : list Event :=
  match r with
  | OnSocket s (UserJoin username) =>
      match to_string username with
      | Some name => [joinMessage e s name]
      | None => []
      end
  | OnSocket s (ChatMessage (JStr text)) =>
      if truthy (obj_read (users st) (sock_id s)) && negb (blank text)
      then [Chat (uuid e) (obj_read (users st) (sock_id s)) text (now e)]
      else []
  | OnSocket s Disconnect =>
      if truthy (obj_read (users st) (sock_id s))
      then match to_string (obj_read (users st) (sock_id s)) with
           | Some name => [leaveMessage e name]
           | None => []
           end
      else []
  | PostUpload (Some f) username =>
      [File (uuid' e) username (upload_info e f) (now e)]
  | _ => []
  end.

(** A chat event as the chat handler lets it through: a truthy author and a
    text that does not trim to nothing. *)
Definition chat_ok (m : Event) : bool :=
  match m with
  | Chat _ username text _ => truthy username && negb (blank text)
  | _ => true
  end.

(** Some character of the text is not white space. *)
Definition has_ink (text : jsstring) : bool :=
  existsb (fun c => negb (is_white_space c)) text.

(** ** Start-up helper and the maintenance route *)

(** One address of [os.networkInterfaces()[name]]. *)
Record net_address := {
  family : jsstring;
  internal : bool;
  address : jsstring
}.

(** The inner loop of [getLocalIpAddress]: the first address that is IPv4
    and not internal. *)
Fixpoint first_external_ipv4 (l : list net_address) : option jsstring :=
  match l with
  | [] => None
  | net :: l' =>
      if str_eqb (family net) (lit "IPv4") && negb (internal net)
      then Some (address net)
      else first_external_ipv4 l'
  end.

(** The outer loop, over [Object.keys(nets)], reading [nets[name]]. *)
Fixpoint scan_interfaces (nets : jsobject (list net_address))
    (names : list jsstring) : option jsstring :=
  match names with
  | [] => None
  | name :: names' =>
      match first_external_ipv4
              (match obj_get nets name with Some l => l | None => [] end) with
      | Some a => Some a
      | None => scan_interfaces nets names'
      end
  end.

Definition no_address : jsstring :=
  lit "192.168.x.x (check your network settings)".

(** function getLocalIpAddress(), on the result of
    [os.networkInterfaces()]. *)
Definition getLocalIpAddress (nets : jsobject (list net_address)) : jsstring :=
  match scan_interfaces nets (map fst nets) with
  | Some a => a
  | None => no_address
  end.

(** What the callback of app.get("/git-pull") logs and sends. *)
Inductive pull_output :=
| PullError (text : jsstring)              (* console.error *)
| PullLog (text : jsstring)                (* console.log *)
| PullSend (status : Z) (text : jsstring). (* res.status(..).send(..) *)

(** The callback [(error, stdout, stderr) => ...] of [exec]: [error] is
    null or an Error, of which the message is read. *)
Definition git_pull (error : option jsstring) (stdout stderr : jsstring)
  : list pull_output :=
  match error with
  | Some message =>
      [PullError (lit "Error: " ++ message);
       PullSend 500 (lit "Error: " ++ message)]
  | None =>
      if truthy (JStr stderr)
      then [PullError (lit "Stderr: " ++ stderr);
            PullSend 500 (lit "Stderr: " ++ stderr)]
      else [PullLog (lit "Stdout: " ++ stdout);
            PullSend 200 (lit "Git pull successful:" ++ [10%N] ++ stdout)]
  end.

Definition pull_status (out : list pull_output) : list Z :=
  flat_map (fun o => match o with PullSend st _ => [st] | _ => [] end) out.

(** ** More concrete data *)

Definition photo : upload_file :=
  {| filename := lit "3f2a.png"; originalname := lit "cat.png";
     size := 2048; mimetype := lit "image/png" |}.

Definition loopback : net_address :=
  {| family := lit "IPv4"; internal := true; address := lit "127.0.0.1" |}.
Definition link_local6 : net_address :=
  {| family := lit "IPv6"; internal := false; address := lit "fe80::1" |}.
Definition lan : net_address :=
  {| family := lit "IPv4"; internal := false; address := lit "192.168.1.20" |}.
Definition vpn : net_address :=
  {| family := lit "IPv4"; internal := false; address := lit "10.8.0.2" |}.

(** sockA joins under the empty name, then joins again as alice. *)
Definition rejoined : state :=
  final_state
    (run [(env_at 0, Connection sockA);
          (env_at 1, OnSocket sockA (UserJoin (JStr [])));
          (env_at 2, OnSocket sockA (UserJoin alice))] (boot None)).

(** A and B connected, both joined. *)
Definition room : state :=
  final_state
    (run [(env_at 1, OnSocket sockB (UserJoin bob))] lobby).

(** * Properties *)

Unset Implicit Arguments.

(** ** Strings and objects *)

Lemma str_eqb_eq (a b : jsstring) : str_eqb a b = true <-> a = b.
Proof.
  revert b; induction a as [|x a IH]; intros [|y b]; simpl;
    try (split; congruence).
  rewrite andb_true_iff, N.eqb_eq, IH. split.
  - intros [-> ->]; reflexivity.
  - intros H; injection H; auto.
Qed.

Lemma str_eqb_refl (a : jsstring) : str_eqb a a = true.
Proof. apply str_eqb_eq; reflexivity. Qed.

Lemma str_eqb_neq (a b : jsstring) : str_eqb a b = false <-> a <> b.
Proof.
  rewrite <- str_eqb_eq. destruct (str_eqb a b); split; congruence.
Qed.

Section Objects.
Variable V : Type.
Implicit Types (o : jsobject V) (k c : jsstring) (v : V).

Lemma obj_get_set_same o k v : obj_get (obj_set o k v) k = Some v.
Proof.
  induction o as [|[k' v'] o IH]; simpl.
  - rewrite str_eqb_refl; reflexivity.
  - destruct (str_eqb k' k) eqn:E; simpl; rewrite E; auto.
Qed.

Lemma obj_get_set_other o k c v :
  k <> c -> obj_get (obj_set o k v) c = obj_get o c.
Proof.
  intros Hne; induction o as [|[k' v'] o IH]; simpl.
  - apply str_eqb_neq in Hne; rewrite Hne; reflexivity.
  - destruct (str_eqb k' k) eqn:E; simpl.
    + apply str_eqb_eq in E; subst k'.
      apply str_eqb_neq in Hne; rewrite Hne; reflexivity.
    + rewrite IH; reflexivity.
Qed.

Lemma obj_get_delete_other o k c :
  k <> c -> obj_get (obj_delete o k) c = obj_get o c.
Proof.
  intros Hne; induction o as [|[k' v'] o IH]; simpl; auto.
  destruct (str_eqb k' k) eqn:E; simpl.
  - apply str_eqb_eq in E; subst k'.
    apply str_eqb_neq in Hne; rewrite Hne; exact IH.
  - rewrite IH; reflexivity.
Qed.

Lemma obj_get_delete_same o k : obj_get (obj_delete o k) k = None.
Proof.
  induction o as [|[k' v'] o IH]; simpl; auto.
  destruct (str_eqb k' k) eqn:E; simpl; auto. rewrite E; exact IH.
Qed.

Lemma obj_delete_absent o k : obj_get o k = None -> obj_delete o k = o.
Proof.
  induction o as [|[k' v'] o IH]; simpl; auto.
  destruct (str_eqb k' k) eqn:E; [discriminate|].
  intros H; simpl; rewrite (IH H); reflexivity.
Qed.

(** Setting a key that is not there, then deleting it, gives the object
    back, position of the other keys included. *)
Lemma obj_delete_set_fresh o k v :
  obj_get o k = None -> obj_delete (obj_set o k v) k = o.
Proof.
  induction o as [|[k' v'] o IH]; simpl.
  - rewrite str_eqb_refl; reflexivity.
  - destruct (str_eqb k' k) eqn:E; [discriminate|].
    intros H; simpl; rewrite E; simpl. rewrite (IH H); reflexivity.
Qed.

Lemma obj_get_values o k v : obj_get o k = Some v -> In v (obj_values o).
Proof.
  induction o as [|[k' v'] o IH]; simpl; [discriminate|].
  destruct (str_eqb k' k); intros H.
  - left; congruence.
  - right; auto.
Qed.
End Objects.

(** ** Slices *)

Lemma slice_negative {A} (l : list A) (n : Z) :
  (1 <= n)%Z -> slice l (- n) = spec_last n l.
Proof.
  intros Hn; unfold slice, spec_last.
  replace (- n <? 0)%Z with true by (symmetry; apply Z.ltb_lt; lia).
  f_equal; lia.
Qed.

Lemma spec_last_all {A} (n : Z) (l : list A) :
  (Z.of_nat (length l) <= n)%Z -> spec_last n l = l.
Proof.
  intros H; unfold spec_last.
  replace (Z.to_nat _) with 0%nat by lia. reflexivity.
Qed.

Lemma spec_last_length {A} (n : Z) (l : list A) :
  (0 <= n)%Z ->
  Z.of_nat (length (spec_last n l)) = Z.min n (Z.of_nat (length l)).
Proof.
  intros H; unfold spec_last. rewrite length_skipn. lia.
Qed.

Lemma spec_last_suffix {A} (n : Z) (l : list A) :
  exists older, l = older ++ spec_last n l.
Proof.
  unfold spec_last.
  exists (firstn (Z.to_nat (Z.of_nat (length l) - Z.min n (Z.of_nat (length l)))) l).
  symmetry; apply firstn_skipn.
Qed.

(** The last [n] of a log that ends in [k >= n - 1] known events and one
    more: the last [n - 1] of the known ones, then the new one. *)
Lemma spec_last_snoc {A} (n : Z) (l : list A) (x : A) :
  (1 <= n <= Z.of_nat (length l) + 1)%Z ->
  spec_last n (l ++ [x]) = spec_last (n - 1) l ++ [x].
Proof.
  intros H; unfold spec_last. rewrite length_app; simpl.
  rewrite skipn_app.
  replace (Z.to_nat (Z.of_nat (length l + 1) - _) - length l)%nat
    with 0%nat by lia.
  simpl. f_equal. f_equal. lia.
Qed.

Lemma spec_last_app {A} (n : Z) (pre l : list A) :
  (0 <= n <= Z.of_nat (length l))%Z ->
  spec_last n (pre ++ l) = spec_last n l.
Proof.
  intros H; unfold spec_last. rewrite length_app, skipn_app.
  replace (Z.to_nat (Z.of_nat (length pre + length l) - _))
    with (length pre + Z.to_nat (Z.of_nat (length l) - n))%nat by lia.
  rewrite skipn_all2 by lia. simpl.
  f_equal; lia.
Qed.

(** ** The handlers, computed *)

Lemma saveMessages_eq e st :
  saveMessages e st = Returned tt (saved e st) (save_log e).
Proof.
  unfold saveMessages, saved, save_log, try_catch, bind, read, writeFileSync.
  destruct (fs_error e); reflexivity.
Qed.

Lemma Append_eq e m st :
  Append e m st
  = Returned tt (saved e (set_messages (fun l => l ++ [m]) st)) (save_log e).
Proof.
  unfold Append, push, bind, modify. rewrite saveMessages_eq. reflexivity.
Qed.

Ltac run_handler :=
  cbv [bind modify tell emit push read ret throw saveMessages try_catch
       writeFileSync saved save_log js_to_string express_route Append].

Lemma on_user_join_eq e s username name st :
  to_string username = Some name ->
  let st' :=
    saved e (set_messages (fun l => l ++ [joinMessage e s name])
               (set_users (fun u => obj_set u (sock_id s) username) st)) in
  on_user_join e s username st
  = Returned tt st'
      (ConsoleLog (name ++ lit " connected from IP: " ++ clientIp s)
       :: save_log e
       ++ [Emit (ToOthers (sock_id s)) "user-joined" (PValue username);
           Emit (ToOthers (sock_id s)) "system-message"
             (PEvent (joinMessage e s name));
           Emit ToAll "users-list" (PValues (obj_values (users st')));
           Emit (ToOne (sock_id s)) "message-history"
             (PEvents (slice (messages st') (-50)))]).
Proof.
  intros Ht. unfold on_user_join, joinMessage. run_handler. rewrite Ht.
  destruct (fs_error e); reflexivity.
Qed.

(** A name without string conversion: the entry is set, then the template
    literal throws. *)
Lemma on_user_join_no_text e s username st :
  to_string username = None ->
  on_user_join e s username st
  = Thrown (lit "TypeError: Cannot convert object to primitive value")
      (set_users (fun u => obj_set u (sock_id s) username) st) [].
Proof.
  intros Ht. unfold on_user_join. run_handler. rewrite Ht. reflexivity.
Qed.

Lemma on_chat_message_unnamed e s message st :
  truthy (obj_read (users st) (sock_id s)) = false ->
  on_chat_message e s message st = Returned tt st [].
Proof.
  intros H; unfold on_chat_message, bind, read; simpl.
  rewrite H; reflexivity.
Qed.

Lemma on_chat_message_blank e s text st :
  trim text = [] ->
  on_chat_message e s (JStr text) st = Returned tt st [].
Proof.
  intros H; unfold on_chat_message. run_handler.
  destruct (truthy (obj_read (users st) (sock_id s))); simpl;
    [rewrite H|]; reflexivity.
Qed.

Lemma on_chat_message_not_a_string e s b t st :
  truthy (obj_read (users st) (sock_id s)) = true ->
  on_chat_message e s (JOther b t) st
  = Thrown (lit "TypeError: message.trim is not a function") st [].
Proof.
  intros H; unfold on_chat_message. run_handler.
  rewrite H; reflexivity.
Qed.

Lemma on_chat_message_sent e s text st :
  truthy (obj_read (users st) (sock_id s)) = true ->
  trim text <> [] ->
  let messageObj :=
    Chat (uuid e) (obj_read (users st) (sock_id s)) text (now e) in
  on_chat_message e s (JStr text) st
  = Returned tt (saved e (set_messages (fun l => l ++ [messageObj]) st))
      (save_log e ++ [Emit ToAll "chat-message" (PEvent messageObj)]).
Proof.
  intros H Ht; unfold on_chat_message. run_handler.
  rewrite H; simpl. destruct (trim text) eqn:E; [congruence|]. simpl.
  destruct (fs_error e); reflexivity.
Qed.

Lemma on_typing_eq s st :
  on_typing s st
  = Returned tt st
      (if truthy (obj_read (users st) (sock_id s))
       then [Emit (ToOthers (sock_id s)) "typing"
               (PValue (obj_read (users st) (sock_id s)))]
       else []).
Proof.
  unfold on_typing. run_handler.
  destruct (truthy (obj_read (users st) (sock_id s))); reflexivity.
Qed.

Lemma on_stop_typing_eq s st :
  on_stop_typing s st
  = Returned tt st
      (if truthy (obj_read (users st) (sock_id s))
       then [Emit (ToOthers (sock_id s)) "stop typing"
               (PValue (obj_read (users st) (sock_id s)))]
       else []).
Proof.
  unfold on_stop_typing. run_handler.
  destruct (truthy (obj_read (users st) (sock_id s))); reflexivity.
Qed.

Lemma on_disconnect_unnamed e s st :
  truthy (obj_read (users st) (sock_id s)) = false ->
  on_disconnect e s st = Returned tt st [].
Proof.
  intros H; unfold on_disconnect, bind, read; simpl.
  rewrite H; reflexivity.
Qed.

Lemma on_disconnect_named e s name st :
  truthy (obj_read (users st) (sock_id s)) = true ->
  to_string (obj_read (users st) (sock_id s)) = Some name ->
  let username := obj_read (users st) (sock_id s) in
  let st' :=
    set_users (fun u => obj_delete u (sock_id s))
      (saved e (set_messages (fun l => l ++ [leaveMessage e name]) st)) in
  on_disconnect e s st
  = Returned tt st'
      (save_log e
       ++ [Emit (ToOthers (sock_id s)) "user-left" (PValue username);
           Emit (ToOthers (sock_id s)) "system-message"
             (PEvent (leaveMessage e name));
           Emit ToAll "users-list" (PValues (obj_values (users st')))]).
Proof.
  intros H Ht; unfold on_disconnect, leaveMessage. run_handler.
  rewrite H, Ht. destruct (fs_error e); reflexivity.
Qed.

(** A registered name that is truthy and without string conversion: the
    template literal of the leave notice throws before anything is done. *)
Lemma on_disconnect_no_text e s st :
  truthy (obj_read (users st) (sock_id s)) = true ->
  to_string (obj_read (users st) (sock_id s)) = None ->
  on_disconnect e s st
  = Thrown (lit "TypeError: Cannot convert object to primitive value") st [].
Proof.
  intros H Ht; unfold on_disconnect. run_handler.
  rewrite H, Ht. reflexivity.
Qed.

Lemma post_upload_stored e f username st :
  let info :=
    {| fi_id := uuid e; fi_filename := filename f;
       fi_originalname := originalname f;
       fi_path := lit "/uploads/" ++ filename f;
       fi_size := size f; fi_mimetype := mimetype f |} in
  let fileMessage := File (uuid' e) username info (now e) in
  post_upload e (Some f) username st
  = Returned tt (saved e (set_messages (fun l => l ++ [fileMessage]) st))
      (save_log e
       ++ [Emit ToAll "new-file" (PEvent fileMessage);
           Respond 200 (JsonUploaded info)]).
Proof.
  unfold post_upload. run_handler. destruct (fs_error e); reflexivity.
Qed.

Lemma saved_messages e st : messages (saved e st) = messages st.
Proof. unfold saved; destruct (fs_error e); reflexivity. Qed.

Lemma saved_users e st : users (saved e st) = users st.
Proof. unfold saved; destruct (fs_error e); reflexivity. Qed.

Lemma saved_connected e st : connected (saved e st) = connected st.
Proof. unfold saved; destruct (fs_error e); reflexivity. Qed.

(** ** One turn of the event loop *)

(** A chat message either is dropped, throws before touching anything, or
    is appended. *)
Lemma on_chat_message_cases e s message st :
  on_chat_message e s message st = Returned tt st []
  \/ (exists err, on_chat_message e s message st = Thrown err st [])
  \/ (exists m,
        on_chat_message e s message st
        = Returned tt (saved e (set_messages (fun l => l ++ [m]) st))
            (save_log e ++ [Emit ToAll "chat-message" (PEvent m)])).
Proof.
  destruct (truthy (obj_read (users st) (sock_id s))) eqn:Hu.
  - destruct message as [text|b t].
    + destruct (trim text) eqn:Ht.
      * left; apply on_chat_message_blank; exact Ht.
      * right; right; eexists; apply on_chat_message_sent; congruence.
    + right; left; eexists; apply on_chat_message_not_a_string; exact Hu.
  - left; apply on_chat_message_unnamed; exact Hu.
Qed.

Lemma express_route_returned handler st st' out :
  handler st = Returned tt st' out ->
  express_route handler st = Returned tt st' out.
Proof.
  intros H; unfold express_route, try_catch. rewrite H; reflexivity.
Qed.

Lemma step_join_eq e s username name st :
  to_string username = Some name ->
  let st' :=
    saved e (set_messages (fun l => l ++ [joinMessage e s name])
               (set_users (fun u => obj_set u (sock_id s) username) st)) in
  step e (OnSocket s (UserJoin username)) st
  = Returned tt st'
      (ConsoleLog (name ++ lit " connected from IP: " ++ clientIp s)
       :: save_log e
       ++ [Emit (ToOthers (sock_id s)) "user-joined" (PValue username);
           Emit (ToOthers (sock_id s)) "system-message"
             (PEvent (joinMessage e s name));
           Emit ToAll "users-list" (PValues (obj_values (users st')));
           Emit (ToOne (sock_id s)) "message-history"
             (PEvents (slice (messages st') (-50)))]).
Proof.
  intros Ht. cbn [step]. apply on_user_join_eq; exact Ht.
Qed.

Lemma step_disconnect_named e s name st :
  truthy (obj_read (users st) (sock_id s)) = true ->
  to_string (obj_read (users st) (sock_id s)) = Some name ->
  let username := obj_read (users st) (sock_id s) in
  let st0 :=
    set_connected (filter (fun c => negb (str_eqb c (sock_id s)))) st in
  let st' :=
    set_users (fun u => obj_delete u (sock_id s))
      (saved e (set_messages (fun l => l ++ [leaveMessage e name]) st0)) in
  step e (OnSocket s Disconnect) st
  = Returned tt st'
      (save_log e
       ++ [Emit (ToOthers (sock_id s)) "user-left" (PValue username);
           Emit (ToOthers (sock_id s)) "system-message"
             (PEvent (leaveMessage e name));
           Emit ToAll "users-list" (PValues (obj_values (users st')))]).
Proof.
  intros Hu Ht; cbv zeta; cbn [step]. unfold bind at 1, modify.
  rewrite (on_disconnect_named e s name
             (set_connected
                (filter (fun c => negb (str_eqb c (sock_id s)))) st) Hu Ht).
  reflexivity.
Qed.

Lemma step_disconnect_no_text e s st :
  truthy (obj_read (users st) (sock_id s)) = true ->
  to_string (obj_read (users st) (sock_id s)) = None ->
  step e (OnSocket s Disconnect) st
  = Thrown (lit "TypeError: Cannot convert object to primitive value")
      (set_connected (filter (fun c => negb (str_eqb c (sock_id s)))) st) [].
Proof.
  intros Hu Ht; cbn [step]. unfold bind at 1, modify.
  rewrite (on_disconnect_no_text e s
             (set_connected
                (filter (fun c => negb (str_eqb c (sock_id s)))) st) Hu Ht).
  reflexivity.
Qed.

Lemma step_disconnect_unnamed e s st :
  truthy (obj_read (users st) (sock_id s)) = false ->
  step e (OnSocket s Disconnect) st
  = Returned tt
      (set_connected (filter (fun c => negb (str_eqb c (sock_id s)))) st) [].
Proof.
  intros Hu; cbn [step]. unfold bind at 1, modify.
  rewrite (on_disconnect_unnamed e s
             (set_connected
                (filter (fun c => negb (str_eqb c (sock_id s)))) st) Hu).
  reflexivity.
Qed.

Lemma step_upload_stored e f username st :
  let fileMessage := File (uuid' e) username (upload_info e f) (now e) in
  step e (PostUpload (Some f) username) st
  = Returned tt (saved e (set_messages (fun l => l ++ [fileMessage]) st))
      (save_log e
       ++ [Emit ToAll "new-file" (PEvent fileMessage);
           Respond 200 (JsonUploaded (upload_info e f))]).
Proof.
  cbv zeta; cbn [step]. apply express_route_returned.
  apply post_upload_stored.
Qed.

Lemma step_history_eq e query_limit text st :
  to_string query_limit = Some text ->
  step e (GetApiMessages query_limit) st
  = Returned tt st
      [Respond 200
         (JsonEvents (slice (messages st) (- or_default (parseInt text) 50)))].
Proof.
  intros Ht; cbn [step]. unfold get_api_messages. run_handler.
  rewrite Ht. reflexivity.
Qed.

(** A limit without string conversion: [parseInt] throws, express answers. *)
Lemma step_history_no_text e query_limit st :
  to_string query_limit = None ->
  step e (GetApiMessages query_limit) st
  = Returned tt st [Respond 500 ErrorPage].
Proof.
  intros Ht; cbn [step]. unfold get_api_messages. run_handler.
  rewrite Ht. reflexivity.
Qed.

(** The shapes a turn can take, for the proofs that go by cases. *)
Ltac step_cases e r st :=
  destruct r as [?s|?s [?username| |?message| | |]|[?f|] ?username|?q];
  [ cbn [step]
  | destruct (to_string username) as [?name|] eqn:?Ht;
    [ rewrite (step_join_eq e s username name st Ht); cbv zeta
    | cbn [step]; rewrite (on_user_join_no_text e s username st Ht) ]
  | cbn [step]
  | cbn [step];
    destruct (on_chat_message_cases e s message st)
      as [?H|[[?err ?H]|[?m ?H]]]; rewrite H
  | cbn [step]; rewrite on_typing_eq
  | cbn [step]; rewrite on_stop_typing_eq
  | destruct (truthy (obj_read (users st) (sock_id s))) eqn:?Hu;
    [ destruct (to_string (obj_read (users st) (sock_id s)))
        as [?name|] eqn:?Ht;
      [ rewrite (step_disconnect_named e s name st Hu Ht); cbv zeta
      | rewrite (step_disconnect_no_text e s st Hu Ht) ]
    | rewrite (step_disconnect_unnamed e s st Hu) ]
  | rewrite (step_upload_stored e f username st); cbv zeta
  | cbn [step]
  | destruct (to_string q) as [?text|] eqn:?Ht;
    [ rewrite (step_history_eq e q text st Ht)
    | rewrite (step_history_no_text e q st Ht) ] ].

(** The log only grows, whatever the request and however the turn ends. *)
Lemma step_messages e r st :
  exists added, messages (final_state (step e r st)) = messages st ++ added.
Proof.
  step_cases e r st; cbn [final_state messages set_users set_connected];
    rewrite ?saved_messages; cbn [messages set_messages set_users set_connected];
    try (exists []; rewrite app_nil_r; reflexivity); eauto.
Qed.

(** The registry after one turn. *)
Lemma step_users e r st :
  users (final_state (step e r st))
  = match r with
    | OnSocket s (UserJoin username) => obj_set (users st) (sock_id s) username
    | OnSocket s Disconnect =>
        if truthy (obj_read (users st) (sock_id s))
           && has_text (obj_read (users st) (sock_id s))
        then obj_delete (users st) (sock_id s)
        else users st
    | _ => users st
    end.
Proof.
  step_cases e r st; unfold has_text; rewrite ?Hu, ?Ht;
    cbn [final_state users set_users set_connected andb];
    rewrite ?saved_users; reflexivity.
Qed.

(** ** Runs *)

Lemma run_cons e r trace st :
  final_state (run ((e, r) :: trace) st)
  = if returns (step e r st)
    then final_state (run trace (final_state (step e r st)))
    else final_state (step e r st).
Proof.
  simpl; unfold bind. destruct (step e r st) as [[] st1 o1|err st1 o1]; simpl.
  - destruct (run trace st1); reflexivity.
  - reflexivity.
Qed.

(** A property of the state kept by every admitted turn is kept by every
    run made of such turns, whether the run ends or dies. *)
Lemma run_invariant (ok : request -> bool) (P : state -> Prop) :
  (forall e r st, ok r = true -> P st -> P (final_state (step e r st))) ->
  forall trace st,
    forallb (fun er => ok (snd er)) trace = true ->
    P st -> P (final_state (run trace st)).
Proof.
  intros Hstep; induction trace as [|[e r] trace IH]; intros st Hok HP.
  - exact HP.
  - simpl in Hok; apply andb_true_iff in Hok as [Hr Hrest].
    rewrite run_cons.
    destruct (returns (step e r st)); auto.
Qed.

Lemma Append_all_eq calls st :
  returns (Append_all calls st) = true
  /\ messages (final_state (Append_all calls st))
     = messages st ++ map snd calls
  /\ users (final_state (Append_all calls st)) = users st.
Proof.
  revert st; induction calls as [|[e m] calls IH]; intros st; simpl.
  - rewrite app_nil_r; auto.
  - unfold bind. rewrite Append_eq.
    destruct (IH (saved e (set_messages (fun l => l ++ [m]) st)))
      as (Hr & Hm & Hu).
    destruct (Append_all calls _) as [[] st2 o2|err st2 o2];
      [|discriminate]; simpl in *.
    rewrite Hm, Hu, saved_messages, saved_users; simpl.
    rewrite <- app_assoc; auto.
Qed.

Lemma replays_app o1 o2 : replays (o1 ++ o2) = replays o1 ++ replays o2.
Proof. apply flat_map_app. Qed.

Lemma replays_save_log e : replays (save_log e) = [].
Proof. unfold save_log; destruct (fs_error e); reflexivity. Qed.

(** ** The replay on join *)

Lemma replays_join e s username name st :
  to_string username = Some name ->
  replays (outputs (step e (OnSocket s (UserJoin username)) st))
  = [(sock_id s, spec_last 50 (messages st ++ [joinMessage e s name]))].
Proof.
  intros Ht. rewrite (step_join_eq e s username name st Ht); cbv zeta.
  cbn [outputs]. rewrite saved_messages; cbn [messages set_messages set_users].
  change (ConsoleLog ?t :: ?l) with ([ConsoleLog t] ++ l).
  rewrite !replays_app, replays_save_log.
  rewrite (slice_negative _ 50) by lia. reflexivity.
Qed.

(** C1, as the code has it. A join under a name that converts to a string
    first appends the joiner's own notice to the log and then pushes, to the
    joiner alone, the last 50 events of the log as it then stands: all of
    it when it holds at most 50 events. After 60 chat messages the replay
    is therefore the last 49 of them, in send order, followed by the join
    notice. *)
Theorem join_replay_is_last_50 e s username name st :
  to_string username = Some name ->
  let r := step e (OnSocket s (UserJoin username)) st in
  let notice := joinMessage e s name in
  returns r = true
  /\ messages (final_state r) = messages st ++ [notice]
  /\ replays (outputs r)
     = [(sock_id s, spec_last 50 (messages (final_state r)))]
  /\ ((Z.of_nat (length (messages st)) < 50)%Z ->
      replays (outputs r) = [(sock_id s, messages st ++ [notice])])
  /\ (forall older chats,
        messages st = older ++ chats ->
        length chats = 60%nat ->
        replays (outputs r) = [(sock_id s, spec_last 49 chats ++ [notice])]).
Proof.
  intros Ht; cbv zeta. rewrite (replays_join e s username name st Ht).
  rewrite (step_join_eq e s username name st Ht); cbv zeta.
  cbn [returns final_state].
  rewrite saved_messages; cbn [messages set_messages set_users].
  repeat split.
  - intros Hlt. rewrite spec_last_all; [reflexivity|].
    rewrite length_app; simpl; lia.
  - intros older chats Hm Hlen. rewrite Hm, <- app_assoc.
    rewrite spec_last_app by (rewrite length_app; simpl; lia).
    rewrite spec_last_snoc by lia. reflexivity.
Qed.

Lemma join_replay_is_last_50_witness :
  replays
    (outputs (step (env_at 61) (OnSocket sockB (UserJoin bob)) after_sixty))
  = [(sock_id sockB,
      spec_last 49 sent_chats ++ [joinMessage (env_at 61) sockB (lit "bob")])].
Proof.
  apply (join_replay_is_last_50 (env_at 61) sockB bob (lit "bob") after_sixty
           eq_refl)
    with (older := [joinMessage (env_at 0) sockA (lit "alice")]).
  - vm_compute; reflexivity.
  - reflexivity.
Defined.

(** C1 as stated fails: with sixty chat messages in the log, the replay of a
    new joiner is not the last fifty chat messages. The oldest of those
    fifty is missing and the joiner's own notice closes the replay. *)
Lemma join_replay_counterexample :
  messages after_sixty
  = joinMessage (env_at 0) sockA (lit "alice") :: sent_chats
  /\ replays
       (outputs (step (env_at 61) (OnSocket sockB (UserJoin bob)) after_sixty))
     = [(sock_id sockB,
         skipn 11 sent_chats ++ [joinMessage (env_at 61) sockB (lit "bob")])]
  /\ replays
       (outputs (step (env_at 61) (OnSocket sockB (UserJoin bob)) after_sixty))
     <> [(sock_id sockB, spec_last 50 sent_chats)].
Proof.
  assert (H : replays
       (outputs (step (env_at 61) (OnSocket sockB (UserJoin bob)) after_sixty))
     = [(sock_id sockB,
         skipn 11 sent_chats ++ [joinMessage (env_at 61) sockB (lit "bob")])])
    by (vm_compute; reflexivity).
  split; [vm_compute; reflexivity|]. split; [exact H|].
  rewrite H. intro E. vm_compute in E. discriminate E.
Qed.

(** ** Bounded reads of the log *)

(** C2, as the code has it. After any sequence of appends and for every
    [n >= 1], [messages.slice(-n)] is the last [min(n, total)] appended
    events in append order, and the history route that serves it answers
    with that slice and leaves the state as it was. *)
Theorem recent_slice_last_n calls st n :
  (1 <= n)%Z ->
  let st' := final_state (Append_all calls st) in
  let total := messages st ++ map snd calls in
  messages st' = total
  /\ RecentSlice n st' = spec_last n total
  /\ Z.of_nat (length (RecentSlice n st'))
     = Z.min n (Z.of_nat (length total))
  /\ (exists older, total = older ++ RecentSlice n st')
  /\ (forall e query_limit text,
        to_string query_limit = Some text ->
        parseInt text = Some n ->
        step e (GetApiMessages query_limit) st'
        = Returned tt st' [Respond 200 (JsonEvents (RecentSlice n st'))]).
Proof.
  intros Hn; cbv zeta.
  destruct (Append_all_eq calls st) as (_ & Hm & _).
  assert (Hs : RecentSlice n (final_state (Append_all calls st))
               = spec_last n (messages st ++ map snd calls)).
  { unfold RecentSlice. rewrite Hm. apply slice_negative; exact Hn. }
  split; [exact Hm|]. split; [exact Hs|]. split; [|split].
  - rewrite Hs. apply spec_last_length; lia.
  - rewrite Hs. apply spec_last_suffix.
  - intros e q text Ht Hq. rewrite (step_history_eq e q text _ Ht).
    unfold RecentSlice. rewrite Hq; unfold or_default.
    replace (n =? 0)%Z with false by (symmetry; apply Z.eqb_neq; lia).
    reflexivity.
Qed.

Lemma recent_slice_last_n_witness :
  RecentSlice 2
    (final_state
       (Append_all [(env_at 1, System (lit "a") (lit "one") (lit "t1"));
                    (env_disk_full 2, System (lit "b") (lit "two") (lit "t2"));
                    (env_at 3, System (lit "c") (lit "three") (lit "t3"))]
          (boot None)))
  = [System (lit "b") (lit "two") (lit "t2");
     System (lit "c") (lit "three") (lit "t3")].
Proof.
  refine (proj1 (proj2 (recent_slice_last_n
    [(env_at 1, System (lit "a") (lit "one") (lit "t1"));
     (env_disk_full 2, System (lit "b") (lit "two") (lit "t2"));
     (env_at 3, System (lit "c") (lit "three") (lit "t3"))]
    (boot None) 2 _))).
  lia.
Defined.

(** C2 as stated fails at [n = 0]: [slice(-0)] is [slice(0)], the whole
    log, where the last [min(0, total)] events are none; and the history
    route asked for [limit=0] falls back to 50. *)
Lemma recent_slice_counterexample :
  messages lobby = [joinMessage (env_at 0) sockA (lit "alice")]
  /\ RecentSlice 0 lobby = messages lobby
  /\ RecentSlice 0 lobby <> spec_last 0 (messages lobby)
  /\ outputs (step (env_at 1) (GetApiMessages (JStr (lit "0"))) lobby)
     = [Respond 200 (JsonEvents (messages lobby))].
Proof.
  repeat split; try (vm_compute; reflexivity).
  vm_compute; discriminate.
Qed.

(** ** Chat messages that are dropped *)

(** C3. A chat message from a connection with no registered name, and a
    chat message whose text trims to the empty string, returns normally,
    leaves the whole state as it was and sends nothing. *)
Theorem chat_dropped_silently e s message st :
  obj_get (users st) (sock_id s) = None
  \/ (exists text, message = JStr text /\ trim text = []) ->
  step e (OnSocket s (ChatMessage message)) st = Returned tt st [].
Proof.
  intros [Hnone|(text & -> & Hblank)]; cbn [step].
  - apply on_chat_message_unnamed. unfold obj_read; rewrite Hnone; reflexivity.
  - apply on_chat_message_blank; exact Hblank.
Qed.

Lemma chat_dropped_silently_witness :
  step (env_at 5) (OnSocket sockB (ChatMessage js_null)) lobby
  = Returned tt lobby []
  /\ step (env_at 5) (OnSocket sockA (ChatMessage (JStr (lit "   ")))) lobby
     = Returned tt lobby [].
Proof.
  split.
  - apply (chat_dropped_silently (env_at 5) sockB js_null lobby).
    left; reflexivity.
  - apply (chat_dropped_silently (env_at 5) sockA (JStr (lit "   ")) lobby).
    right; exists (lit "   "); split; reflexivity.
Defined.

(** ** Fan-out *)

Lemma recipients_others conn origin c :
  In c (recipients conn (ToOthers origin)) <-> In c conn /\ c <> origin.
Proof.
  simpl. rewrite filter_In, negb_true_iff, str_eqb_neq. reflexivity.
Qed.

Lemma deliveries_to_others st origin name p c :
  In (c, name, p) (deliveries st [Emit (ToOthers origin) name p])
  <-> In c (connected st) /\ c <> origin.
Proof.
  unfold deliveries; cbn [flat_map]. rewrite app_nil_r.
  rewrite in_map_iff, <- recipients_others. split.
  - intros (c' & E & Hin). injection E as ->. exact Hin.
  - intros Hin; exists c; auto.
Qed.

(** C4. Whatever the event, [ToOthers origin] delivers it to every connected
    client other than [origin], and to nobody else: never to [origin]. *)
Theorem to_others_skips_origin st origin name p :
  ~ In (origin, name, p) (deliveries st [Emit (ToOthers origin) name p])
  /\ forall c,
       In (c, name, p) (deliveries st [Emit (ToOthers origin) name p])
       <-> In c (connected st) /\ c <> origin.
Proof.
  split; [|apply deliveries_to_others].
  intros Hin; apply deliveries_to_others in Hin.
  destruct Hin as [_ Hne]; congruence.
Qed.

Lemma to_others_skips_origin_witness :
  In (sock_id sockB, "typing"%string, PValue alice)
     (deliveries lobby [Emit (ToOthers (sock_id sockA)) "typing" (PValue alice)]).
Proof.
  apply (proj2 (to_others_skips_origin lobby (sock_id sockA) "typing"
                  (PValue alice)) (sock_id sockB)).
  split.
  - vm_compute; auto.
  - intro E; vm_compute in E; discriminate E.
Defined.

(** ** Which turns return *)

Lemma step_returns e r st : returns (step e r st) = negb (throws r st).
Proof.
  destruct r as [s|s [username| |message| | |]|[f|] username|q];
    unfold throws, has_text.
  - reflexivity.
  - destruct (to_string username) as [name|] eqn:Ht.
    + rewrite (step_join_eq e s username name st Ht); reflexivity.
    + cbn [step]. rewrite (on_user_join_no_text e s username st Ht).
      reflexivity.
  - reflexivity.
  - cbn [step].
    destruct (truthy (obj_read (users st) (sock_id s))) eqn:Hu.
    + destruct message as [text|b t].
      * destruct (trim text) eqn:Ht.
        -- rewrite on_chat_message_blank by exact Ht; reflexivity.
        -- rewrite on_chat_message_sent by congruence; reflexivity.
      * rewrite on_chat_message_not_a_string by exact Hu; reflexivity.
    + rewrite on_chat_message_unnamed by exact Hu.
      destruct message; reflexivity.
  - cbn [step]. rewrite on_typing_eq; reflexivity.
  - cbn [step]. rewrite on_stop_typing_eq; reflexivity.
  - destruct (truthy (obj_read (users st) (sock_id s))) eqn:Hu.
    + destruct (to_string (obj_read (users st) (sock_id s)))
        as [name|] eqn:Ht.
      * rewrite (step_disconnect_named e s name st Hu Ht); reflexivity.
      * rewrite (step_disconnect_no_text e s st Hu Ht); reflexivity.
    + rewrite (step_disconnect_unnamed e s st Hu); reflexivity.
  - rewrite step_upload_stored; reflexivity.
  - reflexivity.
  - destruct (to_string q) as [text|] eqn:Ht.
    + rewrite (step_history_eq e q text st Ht); reflexivity.
    + rewrite (step_history_no_text e q st Ht); reflexivity.
Qed.

Lemma run_returns_cons e r trace st :
  returns (run ((e, r) :: trace) st)
  = returns (step e r st)
    && returns (run trace (final_state (step e r st))).
Proof.
  simpl; unfold bind.
  destruct (step e r st) as [[] st1 o1|err st1 o1]; simpl; auto.
  destruct (run trace st1); reflexivity.
Qed.

Lemma run_outputs_cons e r trace st o :
  In o (outputs (run ((e, r) :: trace) st)) ->
  In o (outputs (step e r st))
  \/ In o (outputs (run trace (final_state (step e r st)))).
Proof.
  simpl; unfold bind.
  destruct (step e r st) as [[] st1 o1|err st1 o1]; simpl; auto.
  destruct (run trace st1); simpl; intros H; apply in_app_or in H; exact H.
Qed.

(** What every admitted turn sends from a good state, every run of such
    turns sends. *)
Lemma run_outputs_invariant (ok : request -> bool) (P : state -> Prop)
    (Q : output -> Prop) :
  (forall e r st, ok r = true -> P st -> P (final_state (step e r st))) ->
  (forall e r st o,
     ok r = true -> P st -> In o (outputs (step e r st)) -> Q o) ->
  forall trace st,
    forallb (fun er => ok (snd er)) trace = true ->
    P st -> forall o, In o (outputs (run trace st)) -> Q o.
Proof.
  intros HP HQ; induction trace as [|[e r] trace IH]; intros st Hok Hst o Hin.
  - destruct Hin.
  - simpl in Hok; apply andb_true_iff in Hok as [Hr Hrest].
    apply run_outputs_cons in Hin as [Hin|Hin]; eauto.
Qed.

(** ** Join and leave on the registry *)

(** C5, as the code has it. For a connection that has no entry in the
    registry and a truthy display name that converts to a string, as every
    non-empty string does, a join immediately followed by the disconnect
    of the same connection returns and leaves the registry exactly as it
    was before the join. *)
Theorem join_then_leave_restores_registry e1 e2 s username name st :
  obj_get (users st) (sock_id s) = None ->
  truthy username = true ->
  to_string username = Some name ->
  let r := run [(e1, OnSocket s (UserJoin username));
                (e2, OnSocket s Disconnect)] st in
  returns r = true /\ users (final_state r) = users st.
Proof.
  intros Hfresh Hname Ht; cbv zeta.
  assert (Hread : obj_read
                    (users (final_state
                              (step e1 (OnSocket s (UserJoin username)) st)))
                    (sock_id s) = username).
  { rewrite step_users. unfold obj_read. rewrite obj_get_set_same.
    reflexivity. }
  split.
  - rewrite !run_returns_cons, !step_returns. unfold throws.
    rewrite Hread. unfold has_text. rewrite Ht, Hname. reflexivity.
  - rewrite run_cons, step_returns. unfold throws at 1, has_text.
    rewrite Ht. cbn [negb].
    rewrite run_cons, step_returns. unfold throws, has_text.
    rewrite Hread, Ht, Hname. cbn [negb andb run ret final_state].
    rewrite step_users, Hread, step_users. unfold has_text.
    rewrite Ht, Hname. cbn [andb].
    apply obj_delete_set_fresh; exact Hfresh.
Qed.

Lemma join_then_leave_restores_registry_witness :
  users
    (final_state
       (run [(env_at 1, OnSocket sockB (UserJoin bob));
             (env_at 2, OnSocket sockB Disconnect)] lobby))
  = users lobby.
Proof.
  apply (join_then_leave_restores_registry (env_at 1) (env_at 2) sockB bob
           (lit "bob") lobby); reflexivity.
Defined.

(** C5 as stated fails. With an entry already there, the join overwrites it
    and the disconnect removes it, so the earlier entry is lost; with the
    empty name, the join adds an entry that the disconnect leaves behind. *)
Lemma join_then_leave_counterexample :
  users
    (final_state
       (run [(env_at 1, OnSocket sockA (UserJoin bob));
             (env_at 2, OnSocket sockA Disconnect)] lobby))
  <> users lobby
  /\ users
       (final_state
          (run [(env_at 1, OnSocket sockB (UserJoin (JStr [])));
                (env_at 2, OnSocket sockB Disconnect)] lobby))
     <> users lobby.
Proof.
  split; vm_compute; discriminate.
Qed.

(** ** Failing writes *)

Lemma messages_kept_by_runs trace st :
  exists later, messages (final_state (run trace st)) = messages st ++ later.
Proof.
  apply (run_invariant (fun _ => true)
           (fun st' => exists later, messages st' = messages st ++ later)).
  - intros e r st0 _ [later0 H0].
    destruct (step_messages e r st0) as [added Ha].
    exists (later0 ++ added). rewrite Ha, H0, app_assoc; reflexivity.
  - clear; induction trace as [|x trace IH]; simpl; auto.
  - exists []; rewrite app_nil_r; reflexivity.
Qed.

(** C6. When the write of the log fails, the append returns all the same,
    with the event in the in-memory log and the failure on the console; the
    event stays in the log, at its place, through every later run of the
    process; a later append whose write succeeds puts the whole log on
    disk; and for every request, a turn whose write fails returns or throws
    exactly as if the write had succeeded, with the same log, registry and
    connections, the file untouched. *)
Theorem write_failure_is_survivable e m st err :
  fs_error e = Some err ->
  let st' := set_messages (fun l => l ++ [m]) st in
  Append e m st
  = Returned tt st' [ConsoleError "Error saving messages:" err]
  /\ (forall trace, exists later,
        messages (final_state (run trace st')) = messages st ++ m :: later)
  /\ (forall e2 m2,
        fs_error e2 = None ->
        returns (Append e2 m2 st') = true
        /\ messages (final_state (Append e2 m2 st')) = messages st ++ [m; m2]
        /\ disk (final_state (Append e2 m2 st'))
           = Some (messages st ++ [m; m2]))
  /\ (forall r,
        let bad := step e r st in
        let good := step (writable e) r st in
        returns bad = returns good
        /\ messages (final_state bad) = messages (final_state good)
        /\ users (final_state bad) = users (final_state good)
        /\ connected (final_state bad) = connected (final_state good)
        /\ disk (final_state bad) = disk st
        /\ (messages (final_state bad) <> messages st ->
            In (ConsoleError "Error saving messages:" err) (outputs bad))).
Proof.
  intros Herr; cbv zeta. split; [|split; [|split]].
  - rewrite Append_eq. unfold saved, save_log; rewrite Herr; reflexivity.
  - intros trace.
    destruct (messages_kept_by_runs trace
                (set_messages (fun l => l ++ [m]) st)) as [later H].
    exists later. rewrite H; simpl. rewrite <- app_assoc; reflexivity.
  - intros e2 m2 Hok. rewrite Append_eq. unfold saved; rewrite Hok; simpl.
    rewrite <- app_assoc; auto.
  - intros r.
    destruct r as [s|s [username| |message| | |]|[f|] username|q]; cbv zeta.
    + simpl; repeat split; auto; congruence.
    + destruct (to_string username) as [name|] eqn:Ht.
      * rewrite !(step_join_eq _ s username name st Ht); cbv zeta.
        unfold saved, save_log. rewrite Herr; simpl. repeat split; auto.
      * cbn [step]. rewrite !(on_user_join_no_text _ s username st Ht).
        simpl; repeat split; auto; congruence.
    + simpl; repeat split; auto; congruence.
    + cbn [step].
      destruct (truthy (obj_read (users st) (sock_id s))) eqn:Hu.
      * destruct message as [text|b t].
        -- destruct (trim text) eqn:Ht.
           ++ rewrite !on_chat_message_blank by exact Ht.
              simpl; repeat split; auto; congruence.
           ++ rewrite !on_chat_message_sent by congruence.
              unfold saved, save_log. rewrite Herr; simpl.
              repeat split; auto.
        -- rewrite !on_chat_message_not_a_string by exact Hu.
           simpl; repeat split; auto; congruence.
      * rewrite !on_chat_message_unnamed by exact Hu.
        simpl; repeat split; auto; congruence.
    + cbn [step]. rewrite !on_typing_eq.
      simpl; repeat split; auto; congruence.
    + cbn [step]. rewrite !on_stop_typing_eq.
      simpl; repeat split; auto; congruence.
    + destruct (truthy (obj_read (users st) (sock_id s))) eqn:Hu.
      * destruct (to_string (obj_read (users st) (sock_id s)))
          as [name|] eqn:Ht.
        -- rewrite !(step_disconnect_named _ s name st Hu Ht); cbv zeta.
           unfold saved, save_log. rewrite Herr; simpl. repeat split; auto.
        -- rewrite !(step_disconnect_no_text _ s st Hu Ht).
           simpl; repeat split; auto; congruence.
      * rewrite !(step_disconnect_unnamed _ s st Hu).
        simpl; repeat split; auto; congruence.
    + rewrite !step_upload_stored; cbv zeta. unfold saved, save_log.
      rewrite Herr; simpl. repeat split; auto.
    + simpl; repeat split; auto; congruence.
    + destruct (to_string q) as [text|] eqn:Ht.
      * rewrite !(step_history_eq _ q text st Ht).
        simpl; repeat split; auto; congruence.
      * rewrite !(step_history_no_text _ q st Ht).
        simpl; repeat split; auto; congruence.
Qed.

Lemma write_failure_is_survivable_witness :
  Append (env_disk_full 7) (System (lit "x") (lit "notice") (lit "t")) lobby
  = Returned tt
      (set_messages (fun l => l ++ [System (lit "x") (lit "notice") (lit "t")])
         lobby)
      [ConsoleError "Error saving messages:" (lit "ENOSPC")].
Proof.
  apply (write_failure_is_survivable (env_disk_full 7)
           (System (lit "x") (lit "notice") (lit "t")) lobby (lit "ENOSPC")).
  reflexivity.
Defined.

(** ** Typing indicators *)

Lemma indicator_step e s ev st :
  ev = Typing \/ ev = StopTyping ->
  step e (OnSocket s ev) st
  = Returned tt st
      (if truthy (obj_read (users st) (sock_id s))
       then [Emit (ToOthers (sock_id s)) (indicator_name ev)
               (PValue (obj_read (users st) (sock_id s)))]
       else []).
Proof.
  intros [-> | ->]; cbn [step indicator_name].
  - apply on_typing_eq.
  - apply on_stop_typing_eq.
Qed.

(** C7. A typing or stop-typing event returns and leaves the whole state
    as it was: log, file, registry and connections. Whatever it sends goes
    to connected clients other than the originator only; and for a
    connection registered under a truthy name, the indicator carrying that
    name reaches every other connected client. *)
Theorem typing_is_transient e s ev st :
  ev = Typing \/ ev = StopTyping ->
  let r := step e (OnSocket s ev) st in
  returns r = true
  /\ final_state r = st
  /\ (forall c name p,
        In (c, name, p) (deliveries st (outputs r)) ->
        In c (connected st) /\ c <> sock_id s)
  /\ (forall username,
        obj_get (users st) (sock_id s) = Some username ->
        truthy username = true ->
        forall c,
          In c (connected st) -> c <> sock_id s ->
          In (c, indicator_name ev, PValue username)
             (deliveries st (outputs r))).
Proof.
  intros Hev; cbv zeta. rewrite (indicator_step e s ev st Hev).
  cbn [returns final_state outputs].
  split; [reflexivity|]. split; [reflexivity|]. split.
  - intros c name p Hin.
    destruct (truthy (obj_read (users st) (sock_id s))); [|destruct Hin].
    unfold deliveries in Hin; cbn [flat_map] in Hin.
    rewrite app_nil_r in Hin. apply in_map_iff in Hin as (c' & E & Hc).
    injection E as -> _ _. apply recipients_others; exact Hc.
  - intros username Hget Hname c Hc Hne.
    unfold obj_read; rewrite Hget, Hname.
    apply (proj2 (deliveries_to_others st (sock_id s) (indicator_name ev)
                    (PValue username) c)).
    split; assumption.
Qed.

Lemma typing_is_transient_witness :
  final_state (step (env_at 3) (OnSocket sockA StopTyping) lobby) = lobby
  /\ In (sock_id sockB, "stop typing"%string, PValue alice)
        (deliveries lobby
           (outputs (step (env_at 3) (OnSocket sockA StopTyping) lobby))).
Proof.
  pose proof (typing_is_transient (env_at 3) sockA StopTyping lobby
                (or_intror eq_refl)) as (_ & Hst & _ & Hall).
  split; [exact Hst|].
  apply (Hall alice).
  - reflexivity.
  - reflexivity.
  - vm_compute; auto.
  - intro E; vm_compute in E; discriminate E.
Defined.

(** ** Uploads without a file *)

(** C8. An upload request without a file is answered with status 400 and
    the failure body, to the requester alone: the turn returns, the state
    is as it was, no event is built or appended and nothing is delivered
    to any socket. *)
Theorem upload_without_file_rejected e username st :
  step e (PostUpload None username) st
  = Returned tt st [Respond 400 (JsonFailure "No file uploaded")]
  /\ deliveries st (outputs (step e (PostUpload None username) st)) = [].
Proof.
  split; reflexivity.
Qed.

(** ** The registered name of a connection *)

Lemma name_kept_by_turn c e r st :
  negb (is_join_of c r) && negb (is_disconnect_of c r) = true ->
  obj_get (users (final_state (step e r st))) c = obj_get (users st) c.
Proof.
  intros Hok; apply andb_true_iff in Hok as [Hj Hd].
  apply negb_true_iff in Hj, Hd. rewrite step_users.
  destruct r as [s|s [username| |message| | |]|f username|q]; auto.
  - apply obj_get_set_other. apply str_eqb_neq; exact Hj.
  - destruct (truthy (obj_read (users st) (sock_id s))
              && has_text (obj_read (users st) (sock_id s))); auto.
    apply obj_get_delete_other. apply str_eqb_neq; exact Hd.
Qed.

(** C9, as the code has it. A join sets the name of its connection, and
    that name stays what it is through every run in which the connection
    neither joins again nor disconnects: no chat, typing, stop-typing,
    user-list, upload or history request, and no event of another
    connection, alters it. *)
Theorem name_changes_only_by_own_join e s username st trace :
  forallb (fun er => negb (is_join_of (sock_id s) (snd er))
                     && negb (is_disconnect_of (sock_id s) (snd er)))
          trace = true ->
  let joined := final_state (step e (OnSocket s (UserJoin username)) st) in
  obj_get (users joined) (sock_id s) = Some username
  /\ obj_get (users (final_state (run trace joined))) (sock_id s)
     = Some username.
Proof.
  intros Hok; cbv zeta.
  assert (Hset : obj_get
            (users (final_state (step e (OnSocket s (UserJoin username)) st)))
            (sock_id s) = Some username).
  { rewrite step_users. apply obj_get_set_same. }
  split; [exact Hset|].
  apply (run_invariant
           (fun r => negb (is_join_of (sock_id s) r)
                     && negb (is_disconnect_of (sock_id s) r))
           (fun st' => obj_get (users st') (sock_id s) = Some username)).
  - intros e0 r st0 Hr H0. rewrite name_kept_by_turn; assumption.
  - exact Hok.
  - exact Hset.
Qed.

Lemma name_changes_only_by_own_join_witness :
  obj_get
    (users
       (final_state
          (run [(env_at 2, OnSocket sockA (ChatMessage (JStr (lit "hello"))));
                (env_at 3, OnSocket sockB (UserJoin alice));
                (env_at 4, OnSocket sockA Typing);
                (env_at 5, OnSocket sockB Disconnect)]
             (final_state
                (step (env_at 1) (OnSocket sockA (UserJoin alice))
                   (boot None))))))
    (sock_id sockA)
  = Some alice.
Proof.
  apply (name_changes_only_by_own_join (env_at 1) sockA alice (boot None)
           [(env_at 2, OnSocket sockA (ChatMessage (JStr (lit "hello"))));
            (env_at 3, OnSocket sockB (UserJoin alice));
            (env_at 4, OnSocket sockA Typing);
            (env_at 5, OnSocket sockB Disconnect)]).
  reflexivity.
Defined.

(** C9 as stated fails: a second join on the same connection replaces the
    name the first one registered. *)
Lemma name_set_once_counterexample :
  obj_get (users lobby) (sock_id sockA) = Some alice
  /\ obj_get
       (users
          (final_state
             (run [(env_at 1, OnSocket sockA (UserJoin bob))] lobby)))
       (sock_id sockA)
     = Some bob
  /\ alice <> bob.
Proof.
  repeat split; try (vm_compute; reflexivity).
  intro E; vm_compute in E; discriminate E.
Qed.

(** ** Joining with the empty name *)

Lemma empty_name_kept_by_turn c e r st :
  is_join_of c r = false ->
  obj_get (users st) c = Some (JStr []) ->
  obj_get (users (final_state (step e r st))) c = Some (JStr []).
Proof.
  intros Hj Hc. rewrite step_users.
  destruct r as [s|s [username| |message| | |]|f username|q]; auto.
  - rewrite obj_get_set_other; [exact Hc|]. apply str_eqb_neq; exact Hj.
  - destruct (str_eqb (sock_id s) c) eqn:E.
    + apply str_eqb_eq in E; subst c.
      unfold obj_read; rewrite Hc; exact Hc.
    + destruct (truthy (obj_read (users st) (sock_id s))
                && has_text (obj_read (users st) (sock_id s))); auto.
      rewrite obj_get_delete_other; [exact Hc|]. apply str_eqb_neq; exact E.
Qed.

Ltac pick_output H :=
  simpl in H;
  repeat (destruct H as [H|H]; [try discriminate H|]);
  try contradiction.

(** Every 'users-list' sent in a turn carries [Object.values(users)] as the
    registry stands at the end of that turn. *)
Lemma step_snapshots e r st sc l :
  In (Emit sc "users-list" (PValues l)) (outputs (step e r st)) ->
  l = obj_values (users (final_state (step e r st))).
Proof.
  step_cases e r st; unfold save_log;
    try destruct (truthy (obj_read (users st) (sock_id s)));
    try destruct (fs_error e);
    intros Hin; pick_output Hin;
    try (injection Hin as _ <-; reflexivity).
Qed.

Lemma falsy_name_drops_everything e s st :
  truthy (obj_read (users st) (sock_id s)) = false ->
  (forall message,
     step e (OnSocket s (ChatMessage message)) st = Returned tt st [])
  /\ step e (OnSocket s Typing) st = Returned tt st []
  /\ step e (OnSocket s StopTyping) st = Returned tt st [].
Proof.
  intros H; cbn [step]. split; [|split].
  - intros message; apply on_chat_message_unnamed; exact H.
  - rewrite on_typing_eq, H; reflexivity.
  - rewrite on_stop_typing_eq, H; reflexivity.
Qed.

(** C10, as the code has it. A join with the empty string puts an entry
    with the empty name in the registry. Through every later run in which
    that connection does not join again, the entry stays, every 'users-list' snapshot sent (the one
    of the join included) contains the empty name, and every chat, typing
    and stop-typing event of the connection returns with the state as it
    was and nothing sent: what the same events do on a connection that has
    no entry at all. *)
Theorem empty_name_join e s st trace :
  forallb (fun er => negb (is_join_of (sock_id s) (snd er))) trace = true ->
  let join := step e (OnSocket s (UserJoin (JStr []))) st in
  let later := run trace (final_state join) in
  let st' := final_state later in
  obj_get (users (final_state join)) (sock_id s) = Some (JStr [])
  /\ obj_get (users st') (sock_id s) = Some (JStr [])
  /\ In (JStr []) (obj_values (users st'))
  /\ (forall sc l,
        In (Emit sc "users-list" (PValues l)) (outputs join ++ outputs later) ->
        In (JStr []) l)
  /\ (forall e' message,
        step e' (OnSocket s (ChatMessage message)) st' = Returned tt st' [])
  /\ (forall e', step e' (OnSocket s Typing) st' = Returned tt st' [])
  /\ (forall e', step e' (OnSocket s StopTyping) st' = Returned tt st' [])
  /\ (forall e' st0,
        obj_get (users st0) (sock_id s) = None ->
        (forall message,
           step e' (OnSocket s (ChatMessage message)) st0
           = Returned tt st0 [])
        /\ step e' (OnSocket s Typing) st0 = Returned tt st0 []
        /\ step e' (OnSocket s StopTyping) st0 = Returned tt st0 []).
Proof.
  intros Hok; cbv zeta.
  set (join := step e (OnSocket s (UserJoin (JStr []))) st).
  assert (Hjoin : obj_get (users (final_state join)) (sock_id s)
                  = Some (JStr [])).
  { unfold join; rewrite step_users. apply obj_get_set_same. }
  assert (Hkept : obj_get (users (final_state (run trace (final_state join))))
                    (sock_id s) = Some (JStr [])).
  { apply (run_invariant (fun r => negb (is_join_of (sock_id s) r))
             (fun st' => obj_get (users st') (sock_id s) = Some (JStr [])));
      auto.
    intros e0 r st0 Hr H0. apply empty_name_kept_by_turn; auto.
    apply negb_true_iff; exact Hr. }
  assert (Hfalsy : truthy (obj_read (users (final_state
                     (run trace (final_state join)))) (sock_id s)) = false).
  { unfold obj_read; rewrite Hkept; reflexivity. }
  split; [exact Hjoin|]. split; [exact Hkept|].
  split; [apply (obj_get_values _ _ _ _ Hkept)|].
  split; [|split; [|split; [|split]]].
  - intros sc l Hin. apply in_app_or in Hin as [Hin|Hin].
    + apply step_snapshots in Hin; subst l.
      apply (obj_get_values _ _ _ _ Hjoin).
    + refine (run_outputs_invariant
                (fun r => negb (is_join_of (sock_id s) r))
                (fun st' => obj_get (users st') (sock_id s) = Some (JStr []))
                (fun o => forall sc' l',
                   o = Emit sc' "users-list" (PValues l') -> In (JStr []) l')
                _ _ trace (final_state join) Hok Hjoin _ Hin sc l eq_refl).
      * intros e0 r st0 Hr H0. apply empty_name_kept_by_turn; auto.
        apply negb_true_iff; exact Hr.
      * intros e0 r st0 o Hr H0 Ho sc' l' ->.
        apply step_snapshots in Ho; subst l'.
        apply (obj_get_values _ (users (final_state (step e0 r st0)))
                 (sock_id s)).
        apply empty_name_kept_by_turn; auto.
        apply negb_true_iff; exact Hr.
  - intros e' message.
    apply (falsy_name_drops_everything e' s _ Hfalsy).
  - intros e'. apply (falsy_name_drops_everything e' s _ Hfalsy).
  - intros e'. apply (falsy_name_drops_everything e' s _ Hfalsy).
  - intros e' st0 Hnone. apply falsy_name_drops_everything.
    unfold obj_read; rewrite Hnone; reflexivity.
Qed.

Lemma empty_name_join_witness :
  In (JStr [])
     (obj_values
        (users
           (final_state
              (run after_empty_join
                 (final_state
                    (step (env_at 0) (OnSocket sockA (UserJoin (JStr [])))
                       (boot None))))))).
Proof.
  apply (empty_name_join (env_at 0) sockA (boot None) after_empty_join).
  reflexivity.
Defined.

(** C10 as stated fails: the connection may join again. After a join with
    the empty string and a second join as alice, the registry and the
    'users-list' of that second join no longer hold the empty name, and a
    chat message of the connection is appended and sent to all. *)
Lemma empty_name_join_counterexample :
  obj_values (users rejoined) = [alice]
  /\ ~ In (JStr []) (obj_values (users rejoined))
  /\ In (Emit ToAll "users-list" (PValues [alice]))
        (outputs
           (step (env_at 2) (OnSocket sockA (UserJoin alice))
              (final_state
                 (run [(env_at 0, Connection sockA);
                       (env_at 1, OnSocket sockA (UserJoin (JStr [])))]
                    (boot None)))))
  /\ step (env_at 3) (OnSocket sockA (ChatMessage (JStr (lit "hi")))) rejoined
     <> Returned tt rejoined []
  /\ messages
       (final_state
          (step (env_at 3) (OnSocket sockA (ChatMessage (JStr (lit "hi"))))
             rejoined))
     = messages rejoined
       ++ [Chat (uuid (env_at 3)) alice (lit "hi") (now (env_at 3))].
Proof.
  split; [vm_compute; reflexivity|].
  split; [vm_compute; intros [H|[]]; discriminate H|].
  split; [vm_compute; auto 6|].
  split; [|vm_compute; reflexivity].
  intros E.
  assert (H : outputs
                (step (env_at 3)
                   (OnSocket sockA (ChatMessage (JStr (lit "hi")))) rejoined)
              = []) by (rewrite E; reflexivity).
  vm_compute in H. discriminate H.
Qed.

(** The disconnect of a connection registered under the empty name finds no
    truthy name and returns at once: the entry is still there afterwards. *)
Lemma empty_name_outlives_disconnect e s st :
  obj_get (users st) (sock_id s) = Some (JStr []) ->
  users (final_state (step e (OnSocket s Disconnect) st)) = users st.
Proof.
  intros H. rewrite step_users. unfold obj_read; rewrite H; reflexivity.
Qed.

(** * Further properties of the code *)

(** ** Blank texts *)

Lemma trim_start_nil s :
  trim_start s = [] <-> forallb is_white_space s = true.
Proof.
  induction s as [|c s IH]; simpl; [tauto|].
  destruct (is_white_space c); simpl; [exact IH|].
  split; discriminate.
Qed.

Lemma trim_start_suffix s : exists lead, s = lead ++ trim_start s
                                         /\ forallb is_white_space lead = true.
Proof.
  induction s as [|c s (lead & Hs & Hl)]; simpl.
  - exists []; auto.
  - destruct (is_white_space c) eqn:E.
    + exists (c :: lead); simpl. rewrite E, Hl, <- Hs; auto.
    + exists []; auto.
Qed.

Lemma trim_nil s : trim s = [] <-> forallb is_white_space s = true.
Proof.
  unfold trim. split.
  - intros H.
    assert (H1 : trim_start (rev (trim_start s)) = []).
    { destruct (trim_start (rev (trim_start s))) as [|c l]; [reflexivity|].
      simpl in H. apply app_eq_nil in H as [_ H]; discriminate. }
    apply trim_start_nil in H1. rewrite forallb_forall in H1.
    destruct (trim_start_suffix s) as (lead & Hs & Hl).
    rewrite Hs, forallb_app, Hl; simpl.
    apply forallb_forall. intros c Hc. apply H1, in_rev.
    rewrite rev_involutive; exact Hc.
  - intros H. apply trim_start_nil in H. rewrite H; reflexivity.
Qed.

Lemma blank_has_no_ink text : blank text = negb (has_ink text).
Proof.
  unfold blank, has_ink.
  destruct (existsb _ text) eqn:E; simpl.
  - destruct (trim text) eqn:Ht; [|reflexivity].
    apply trim_nil in Ht. rewrite forallb_forall in Ht.
    apply existsb_exists in E as (c & Hc & Hn).
    rewrite (Ht c Hc) in Hn; discriminate.
  - assert (Ht : trim text = []).
    { apply trim_nil, forallb_forall. intros c Hc.
      destruct (is_white_space c) eqn:Ec; [reflexivity|].
      assert (existsb (fun c => negb (is_white_space c)) text = true)
        by (apply existsb_exists; exists c; rewrite Ec; auto).
      congruence. }
    rewrite Ht; reflexivity.
Qed.

(** ** What one turn does to the log and to the file *)

Lemma step_final e r st :
  messages (final_state (step e r st)) = messages st ++ appended e r st
  /\ disk (final_state (step e r st))
     = match appended e r st with
       | [] => disk st
       | _ :: _ => disk (saved e (set_messages
                                    (fun l => l ++ appended e r st) st))
       end.
Proof.
  destruct r as [s|s [username| |message| | |]|[f|] username|q];
    unfold appended.
  - simpl; rewrite app_nil_r; split; reflexivity.
  - destruct (to_string username) as [name|] eqn:Ht.
    + rewrite (step_join_eq e s username name st Ht); cbv zeta.
      cbn [final_state]. rewrite saved_messages; simpl.
      split; [reflexivity|].
      unfold saved; destruct (fs_error e); reflexivity.
    + cbn [step]. rewrite (on_user_join_no_text e s username st Ht).
      simpl; rewrite app_nil_r; split; reflexivity.
  - simpl; rewrite app_nil_r; split; reflexivity.
  - cbn [step]. unfold blank.
    destruct (truthy (obj_read (users st) (sock_id s))) eqn:Hu.
    + destruct message as [text|b t].
      * destruct (trim text) eqn:Ht.
        -- rewrite on_chat_message_blank by exact Ht. simpl.
           rewrite app_nil_r; split; reflexivity.
        -- rewrite on_chat_message_sent by congruence.
           cbv zeta; cbn [final_state]. rewrite saved_messages; simpl.
           split; [reflexivity|].
           unfold saved; destruct (fs_error e); reflexivity.
      * rewrite on_chat_message_not_a_string by exact Hu. simpl.
        rewrite app_nil_r; split; reflexivity.
    + rewrite on_chat_message_unnamed by exact Hu.
      destruct message; simpl; rewrite app_nil_r; split; reflexivity.
  - cbn [step]. rewrite on_typing_eq; simpl; rewrite app_nil_r.
    split; reflexivity.
  - cbn [step]. rewrite on_stop_typing_eq; simpl; rewrite app_nil_r.
    split; reflexivity.
  - destruct (truthy (obj_read (users st) (sock_id s))) eqn:Hu.
    + destruct (to_string (obj_read (users st) (sock_id s)))
        as [name|] eqn:Ht.
      * rewrite (step_disconnect_named e s name st Hu Ht); cbv zeta.
        cbn [final_state]. simpl. rewrite saved_messages; simpl.
        split; [reflexivity|].
        unfold saved; destruct (fs_error e); reflexivity.
      * rewrite (step_disconnect_no_text e s st Hu Ht). simpl.
        rewrite app_nil_r; split; reflexivity.
    + rewrite (step_disconnect_unnamed e s st Hu). simpl.
      rewrite app_nil_r; split; reflexivity.
  - rewrite step_upload_stored; cbv zeta; cbn [final_state].
    rewrite saved_messages; simpl. split; [reflexivity|].
    unfold saved; destruct (fs_error e); reflexivity.
  - simpl; rewrite app_nil_r; split; reflexivity.
  - destruct (to_string q) as [text|] eqn:Ht.
    + rewrite (step_history_eq e q text st Ht). simpl.
      rewrite app_nil_r; split; reflexivity.
    + rewrite (step_history_no_text e q st Ht). simpl.
      rewrite app_nil_r; split; reflexivity.
Qed.

Lemma appended_at_most_one e r st : (length (appended e r st) <= 1)%nat.
Proof.
  destruct r as [s|s [username| |[text|b t]| | |]|[f|] username|q]; simpl;
    auto.
  - destruct (to_string username); simpl; auto.
  - destruct (truthy _ && negb _); simpl; auto.
  - destruct (truthy _); [destruct (to_string _)|]; simpl; auto.
Qed.

(** X1. The log is append-only. One turn leaves the log as it was or adds
    one event at its end, the one [appended] names; a run of [n] turns,
    whether it ends or dies, keeps the earlier log as a prefix and adds at
    most [n] events. *)
Theorem log_is_append_only e r st trace :
  messages (final_state (step e r st)) = messages st ++ appended e r st
  /\ (length (appended e r st) <= 1)%nat
  /\ exists later,
       messages (final_state (run trace st)) = messages st ++ later
       /\ (length later <= length trace)%nat.
Proof.
  split; [apply step_final|]. split; [apply appended_at_most_one|].
  revert st; induction trace as [|[e0 r0] trace IH]; intros st.
  - exists []; rewrite app_nil_r; simpl; auto.
  - rewrite run_cons.
    destruct (step_final e0 r0 st) as [Hm _].
    pose proof (appended_at_most_one e0 r0 st) as Hlen.
    destruct (returns (step e0 r0 st)).
    + destruct (IH (final_state (step e0 r0 st))) as (later & Hl & Hn).
      exists (appended e0 r0 st ++ later). split.
      * rewrite Hl, Hm, app_assoc; reflexivity.
      * rewrite length_app; simpl; lia.
    + exists (appended e0 r0 st). split; [exact Hm|simpl; lia].
Qed.

Lemma step_disk_after_write e r st :
  fs_error e = None ->
  disk (final_state (step e r st))
  = match appended e r st with
    | [] => disk st
    | _ :: _ => Some (messages (final_state (step e r st)))
    end.
Proof.
  intros Hok. destruct (step_final e r st) as [Hm Hd].
  rewrite Hd, Hm. destruct (appended e r st) as [|m l]; [reflexivity|].
  unfold saved; rewrite Hok; reflexivity.
Qed.

(** X2. Every write rewrites the whole log. A turn whose write succeeds
    either appends nothing and leaves the file alone, or writes exactly the
    log as it stands after the append, whatever was written before: events
    whose own write had failed are written from then on. *)
Theorem successful_write_stores_whole_log e r st :
  fs_error e = None ->
  disk (final_state (step e r st))
  = match appended e r st with
    | [] => disk st
    | _ :: _ => Some (messages (final_state (step e r st)))
    end.
Proof.
  apply step_disk_after_write.
Qed.

Lemma successful_write_stores_whole_log_witness :
  disk
    (final_state
       (step (env_at 9) (OnSocket sockA (ChatMessage (JStr (lit "back"))))
          (final_state
             (step (env_disk_full 8)
                (OnSocket sockA (ChatMessage (JStr (lit "lost?")))) lobby))))
  = Some [joinMessage (env_at 0) sockA (lit "alice");
          Chat (uuid (env_at 8)) alice (lit "lost?") (now (env_at 8));
          Chat (uuid (env_at 9)) alice (lit "back") (now (env_at 9))].
Proof.
  rewrite (successful_write_stores_whole_log (env_at 9)
             (OnSocket sockA (ChatMessage (JStr (lit "back"))))
             (final_state
                (step (env_disk_full 8)
                   (OnSocket sockA (ChatMessage (JStr (lit "lost?")))) lobby))
             eq_refl).
  vm_compute; reflexivity.
Defined.

(** ** The history route *)

(** X4. Whatever the [limit] of the query, the history route changes
    nothing, sends nothing to any socket, does not end the process and
    answers exactly once: with status 200 and a suffix of the log (events
    are never skipped in the middle, reordered or invented) when the limit
    converts to a string, with the 500 of express when it does not and
    [parseInt] throws. *)
Theorem history_route_answers_a_suffix e query_limit st :
  let r := step e (GetApiMessages query_limit) st in
  returns r = true
  /\ final_state r = st
  /\ deliveries st (outputs r) = []
  /\ match to_string query_limit with
     | Some _ =>
         exists older recent,
           outputs r = [Respond 200 (JsonEvents recent)]
           /\ messages st = older ++ recent
     | None => outputs r = [Respond 500 ErrorPage]
     end.
Proof.
  cbv zeta. destruct (to_string query_limit) as [text|] eqn:Ht.
  - rewrite (step_history_eq e query_limit text st Ht).
    repeat split. unfold slice.
    eexists (firstn _ (messages st)), (skipn _ (messages st)).
    split; [reflexivity|]. symmetry; apply firstn_skipn.
  - rewrite (step_history_no_text e query_limit st Ht).
    repeat split.
Qed.

(** X5. A [limit] that converts to a string which does not start with a
    number, or whose number is 0, stands for 50, and so does an absent
    limit, which reads "undefined": the route answers with the last 50
    events, or the whole log when it is shorter. *)
Theorem history_route_default_limit e query_limit text st :
  to_string query_limit = Some text ->
  parseInt text = None \/ parseInt text = Some 0%Z ->
  step e (GetApiMessages query_limit) st
  = Returned tt st [Respond 200 (JsonEvents (spec_last 50 (messages st)))].
Proof.
  intros Ht H. rewrite (step_history_eq e query_limit text st Ht).
  assert (Hl : or_default (parseInt text) 50 = 50%Z)
    by (destruct H as [-> | ->]; reflexivity).
  rewrite Hl, (slice_negative (messages st) 50) by lia. reflexivity.
Qed.

Lemma history_route_default_limit_witness :
  step (env_at 1) (GetApiMessages js_undefined) after_sixty
  = Returned tt after_sixty
      [Respond 200 (JsonEvents (spec_last 50 (messages after_sixty)))]
  /\ step (env_at 1) (GetApiMessages (JStr (lit "all"))) after_sixty
     = Returned tt after_sixty
         [Respond 200 (JsonEvents (spec_last 50 (messages after_sixty)))]
  /\ step (env_at 1) (GetApiMessages (JStr (lit "0"))) after_sixty
     = Returned tt after_sixty
         [Respond 200 (JsonEvents (spec_last 50 (messages after_sixty)))].
Proof.
  split; [|split].
  - apply (history_route_default_limit (env_at 1) js_undefined
             (lit "undefined") after_sixty eq_refl).
    left; reflexivity.
  - apply (history_route_default_limit (env_at 1) (JStr (lit "all"))
             (lit "all") after_sixty eq_refl).
    left; reflexivity.
  - apply (history_route_default_limit (env_at 1) (JStr (lit "0"))
             (lit "0") after_sixty eq_refl).
    right; reflexivity.
Defined.

(** X6. A negative [limit] is not a count of recent events: [limit=-k]
    makes the route drop the [k] oldest events and answer with all the
    others, however many they are. *)
Theorem history_route_negative_limit e query_limit text n st :
  to_string query_limit = Some text ->
  parseInt text = Some n ->
  (n < 0)%Z ->
  step e (GetApiMessages query_limit) st
  = Returned tt st
      [Respond 200 (JsonEvents (skipn (Z.to_nat (- n)) (messages st)))].
Proof.
  intros Ht Hq Hn. rewrite (step_history_eq e query_limit text st Ht).
  unfold slice. rewrite Hq; unfold or_default.
  replace (n =? 0)%Z with false by (symmetry; apply Z.eqb_neq; lia).
  replace (- n <? 0)%Z with false by (symmetry; apply Z.ltb_ge; lia).
  destruct (Z_le_gt_dec (- n) (Z.of_nat (length (messages st)))) as [Hle|Hgt].
  - rewrite Z.min_l by exact Hle. reflexivity.
  - rewrite Z.min_r by lia. rewrite Nat2Z.id.
    rewrite !skipn_all2 by lia. reflexivity.
Qed.

Lemma history_route_negative_limit_witness :
  step (env_at 1) (GetApiMessages (JStr (lit "-58"))) after_sixty
  = Returned tt after_sixty
      [Respond 200 (JsonEvents (skipn 58 (messages after_sixty)))].
Proof.
  apply (history_route_negative_limit (env_at 1) (JStr (lit "-58"))
           (lit "-58") (-58) after_sixty).
  - reflexivity.
  - reflexivity.
  - lia.
Defined.

(** ** Chat messages that go through *)

Lemma deliveries_iff st out c name p :
  In (c, name, p) (deliveries st out)
  <-> exists sc, In (Emit sc name p) out
                 /\ In c (recipients (connected st) sc).
Proof.
  unfold deliveries. rewrite in_flat_map. split.
  - intros (o & Ho & Hin). destruct o as [sc n q| | |]; try destruct Hin.
    apply in_map_iff in Hin as (c' & E & Hc). injection E as -> -> ->.
    exists sc; auto.
  - intros (sc & Ho & Hc). exists (Emit sc name p). split; [exact Ho|].
    apply in_map_iff. exists c; auto.
Qed.

Lemma in_save_log_emit e sc name p : ~ In (Emit sc name p) (save_log e).
Proof.
  unfold save_log; destruct (fs_error e); simpl; [|tauto].
  intros [H|[]]; discriminate.
Qed.

(** X7. A chat message with at least one character that is not white
    space, from a connection registered under a truthy name, returns and
    appends one chat event that carries the registered name and the text as
    sent, untrimmed; the registry is untouched and the event is delivered
    to every connected client, the sender included, and to nobody else. *)
Theorem chat_reaches_everyone e s text username st :
  obj_get (users st) (sock_id s) = Some username ->
  truthy username = true ->
  has_ink text = true ->
  let m := Chat (uuid e) username text (now e) in
  let r := step e (OnSocket s (ChatMessage (JStr text))) st in
  returns r = true
  /\ messages (final_state r) = messages st ++ [m]
  /\ users (final_state r) = users st
  /\ (forall c name p,
        In (c, name, p) (deliveries (final_state r) (outputs r))
        <-> In c (connected st)
            /\ name = "chat-message"%string /\ p = PEvent m).
Proof.
  intros Hget Hname Hink; cbv zeta; cbn [step].
  assert (Hr : obj_read (users st) (sock_id s) = username)
    by (unfold obj_read; rewrite Hget; reflexivity).
  assert (Ht : trim text <> []).
  { pose proof (blank_has_no_ink text) as Hb. rewrite Hink in Hb.
    unfold blank in Hb. intros E; rewrite E in Hb; discriminate. }
  rewrite on_chat_message_sent by (rewrite ?Hr; assumption).
  cbv zeta; cbn [returns final_state outputs]. rewrite Hr.
  rewrite saved_messages, saved_users; simpl.
  repeat split; try reflexivity.
  - apply deliveries_iff in H as (sc & Ho & Hc).
    apply in_app_or in Ho as [Ho|Ho]; [destruct (in_save_log_emit _ _ _ _ Ho)|].
    destruct Ho as [Ho|[]]. injection Ho as <- _ _.
    simpl in Hc. rewrite saved_connected in Hc. exact Hc.
  - apply deliveries_iff in H as (sc & Ho & Hc).
    apply in_app_or in Ho as [Ho|Ho]; [destruct (in_save_log_emit _ _ _ _ Ho)|].
    destruct Ho as [Ho|[]]. injection Ho as _ <- _. reflexivity.
  - apply deliveries_iff in H as (sc & Ho & Hc).
    apply in_app_or in Ho as [Ho|Ho]; [destruct (in_save_log_emit _ _ _ _ Ho)|].
    destruct Ho as [Ho|[]]. injection Ho as _ _ <-. reflexivity.
  - intros (Hc & -> & ->). apply deliveries_iff. exists ToAll. split.
    + apply in_or_app; right; left; reflexivity.
    + simpl. rewrite saved_connected. exact Hc.
Qed.

Lemma chat_reaches_everyone_witness :
  messages
    (final_state
       (step (env_at 7) (OnSocket sockA (ChatMessage (JStr (lit "  hi  "))))
          lobby))
  = messages lobby
    ++ [Chat (uuid (env_at 7)) alice (lit "  hi  ") (now (env_at 7))].
Proof.
  apply (chat_reaches_everyone (env_at 7) sockA (lit "  hi  ") alice lobby);
    reflexivity.
Defined.

(** ** The uncaught exception *)

Lemma run_app before after st :
  run (before ++ after) st = (run before ;; run after) st.
Proof.
  revert st; induction before as [|[e r] before IH]; intros st; simpl.
  - unfold bind, ret. destruct (run after st); reflexivity.
  - unfold bind.
    destruct (step e r st) as [[] st1 o1|err st1 o1]; [|reflexivity].
    rewrite IH. unfold bind.
    destruct (run before st1) as [[] st2 o2|err st2 o2]; [|reflexivity].
    destruct (run after st2); rewrite app_assoc; reflexivity.
Qed.

(** X8. A chat payload that is not a string, sent by a connection
    registered under a truthy name, makes the handler throw before it has
    changed or sent anything, and nothing catches it: the run ends there,
    in the state and with the outputs reached before that message, and no
    later request is served. *)
Theorem non_string_chat_ends_the_run before e s b t after st :
  returns (run before st) = true ->
  truthy (obj_read (users (final_state (run before st))) (sock_id s)) = true ->
  let r := run (before ++ (e, OnSocket s (ChatMessage (JOther b t))) :: after)
             st in
  returns r = false
  /\ final_state r = final_state (run before st)
  /\ outputs r = outputs (run before st).
Proof.
  intros Hret Hname; cbv zeta.
  assert (E : run (before ++ (e, OnSocket s (ChatMessage (JOther b t)))
                   :: after) st
              = Thrown (lit "TypeError: message.trim is not a function")
                  (final_state (run before st)) (outputs (run before st))).
  { rewrite run_app. unfold bind at 1.
    destruct (run before st) as [[] st1 o1|err st1 o1]; [|discriminate].
    cbn [final_state outputs] in *. cbn [run]. unfold bind at 1. cbn [step].
    rewrite (on_chat_message_not_a_string e s b t st1 Hname).
    rewrite app_nil_r; reflexivity. }
  rewrite E; auto.
Qed.

Lemma non_string_chat_ends_the_run_witness :
  returns
    (run ([(env_at 0, Connection sockA);
           (env_at 0, OnSocket sockA (UserJoin alice))]
          ++ (env_at 1, OnSocket sockA (ChatMessage js_null))
             :: [(env_at 2, OnSocket sockA (ChatMessage (JStr (lit "hi"))))])
       (boot None))
  = false.
Proof.
  apply (non_string_chat_ends_the_run
           [(env_at 0, Connection sockA);
            (env_at 0, OnSocket sockA (UserJoin alice))]
           (env_at 1) sockA false (Some (lit "null"))
           [(env_at 2, OnSocket sockA (ChatMessage (JStr (lit "hi"))))]
           (boot None)); reflexivity.
Defined.

(** ** What the log can hold *)

Lemma appended_chat_ok e r st : forallb chat_ok (appended e r st) = true.
Proof.
  destruct r as [s|s [username| |[text|b t]| | |]|[f|] username|q]; simpl;
    auto.
  - destruct (to_string username); reflexivity.
  - destruct (truthy (obj_read (users st) (sock_id s)) && negb (blank text))
      eqn:E; simpl; [rewrite E|]; reflexivity.
  - destruct (truthy _); [destruct (to_string _)|]; reflexivity.
Qed.

(** X9. No run puts a blank or unsigned chat message in the log: if every
    chat event of the log has a truthy author and a text that does not
    trim to nothing, the same holds after any run. *)
Theorem log_keeps_chats_signed_and_inked trace st :
  forallb chat_ok (messages st) = true ->
  forallb chat_ok (messages (final_state (run trace st))) = true.
Proof.
  intros H0.
  apply (run_invariant (fun _ => true)
           (fun st' => forallb chat_ok (messages st') = true)).
  - intros e r st1 _ H1. destruct (step_final e r st1) as [Hm _].
    rewrite Hm, forallb_app, H1, appended_chat_ok; reflexivity.
  - clear; induction trace as [|x trace IH]; simpl; auto.
  - exact H0.
Qed.

Lemma log_keeps_chats_signed_and_inked_witness :
  forallb chat_ok
    (messages
       (final_state
          (run ([(env_at 0, Connection sockA);
                 (env_at 0, OnSocket sockA (UserJoin (JStr [])));
                 (env_at 1, OnSocket sockA (ChatMessage (JStr (lit "hi"))));
                 (env_at 2, OnSocket sockA (UserJoin alice));
                 (env_at 3, OnSocket sockA (ChatMessage (JStr (lit " "))))]
                ++ sixty_chats) (boot None))))
  = true.
Proof.
  apply (log_keeps_chats_signed_and_inked
           ([(env_at 0, Connection sockA);
             (env_at 0, OnSocket sockA (UserJoin (JStr [])));
             (env_at 1, OnSocket sockA (ChatMessage (JStr (lit "hi"))));
             (env_at 2, OnSocket sockA (UserJoin alice));
             (env_at 3, OnSocket sockA (ChatMessage (JStr (lit " "))))]
            ++ sixty_chats) (boot None)).
  reflexivity.
Defined.

(** ** Who hears of a join *)

Lemma in_singleton_emit sc name p sc' name' p' :
  In (Emit sc name p) [Emit sc' name' p']
  <-> sc = sc' /\ name = name' /\ p = p'.
Proof.
  simpl. split.
  - intros [H|[]]. injection H as -> -> ->. auto.
  - intros (-> & -> & ->); auto.
Qed.

Lemma recipients_all conn c : In c (recipients conn ToAll) <-> In c conn.
Proof. reflexivity. Qed.

Lemma recipients_one conn target c :
  In c (recipients conn (ToOne target)) <-> In c conn /\ c = target.
Proof.
  simpl. rewrite filter_In, str_eqb_eq. reflexivity.
Qed.

(** X10. The fan-out of a join under a name that converts to a string.
    Every connected client other than the joiner receives 'user-joined'
    with the name and 'system-message' with the notice; every connected
    client receives 'users-list' with the names as they stand after the
    join; the joiner alone receives 'message-history'. Nothing else is
    delivered: the joiner gets no 'user-joined' or 'system-message' of its
    own, the others get no replay. *)
Theorem join_fan_out e s username shown st c name p :
  to_string username = Some shown ->
  let r := step e (OnSocket s (UserJoin username)) st in
  In (c, name, p) (deliveries (final_state r) (outputs r))
  <-> In c (connected st)
      /\ ((c <> sock_id s
           /\ name = "user-joined"%string /\ p = PValue username)
          \/ (c <> sock_id s
              /\ name = "system-message"%string
              /\ p = PEvent (joinMessage e s shown))
          \/ (name = "users-list"%string
              /\ p = PValues (obj_values
                                (obj_set (users st) (sock_id s) username)))
          \/ (c = sock_id s
              /\ name = "message-history"%string
              /\ p = PEvents (slice (messages st ++ [joinMessage e s shown])
                                (-50)))).
Proof.
  intros Ht; cbv zeta.
  rewrite (step_join_eq e s username shown st Ht); cbv zeta.
  cbn [final_state outputs]. rewrite saved_messages, saved_users.
  cbn [messages users set_messages set_users].
  rewrite deliveries_iff. rewrite saved_connected; cbn [connected set_messages set_users].
  split.
  - intros (sc & Ho & Hc). destruct Ho as [Ho|Ho]; [discriminate|].
    apply in_app_or in Ho as [Ho|Ho]; [destruct (in_save_log_emit _ _ _ _ Ho)|].
    destruct Ho as [Ho|[Ho|[Ho|[Ho|[]]]]]; injection Ho as <- <- <-.
    + apply recipients_others in Hc as [Hc Hne]. auto 6.
    + apply recipients_others in Hc as [Hc Hne]. auto 7.
    + simpl in Hc. auto 7.
    + apply recipients_one in Hc as [Hc ->]. auto 8.
  - intros (Hc & [(Hne & -> & ->)|[(Hne & -> & ->)|[(-> & ->)|(-> & -> & ->)]]]).
    + exists (ToOthers (sock_id s)). split.
      * right; apply in_or_app; right; simpl; auto.
      * apply recipients_others; auto.
    + exists (ToOthers (sock_id s)). split.
      * right; apply in_or_app; right; simpl; auto.
      * apply recipients_others; auto.
    + exists ToAll. split.
      * right; apply in_or_app; right; simpl; auto.
      * exact Hc.
    + exists (ToOne (sock_id s)). split.
      * right; apply in_or_app; right; simpl; auto 6.
      * apply recipients_one; auto.
Qed.

Lemma join_fan_out_witness :
  In (sock_id sockA, "system-message"%string,
      PEvent (joinMessage (env_at 1) sockB (lit "bob")))
     (deliveries
        (final_state (step (env_at 1) (OnSocket sockB (UserJoin bob)) lobby))
        (outputs (step (env_at 1) (OnSocket sockB (UserJoin bob)) lobby))).
Proof.
  apply (proj2 (join_fan_out (env_at 1) sockB bob (lit "bob") lobby
                  (sock_id sockA) "system-message"
                  (PEvent (joinMessage (env_at 1) sockB (lit "bob")))
                  eq_refl)).
  split.
  - vm_compute; auto.
  - right; left. split; [|split; reflexivity].
    intro E; vm_compute in E; discriminate E.
Defined.

(** X11. The replay of a join under a name that converts to a string is
    never empty and never longer than 50 events, and its last event is the
    notice of that very join. *)
Theorem join_replay_ends_with_own_notice e s username shown st :
  to_string username = Some shown ->
  exists older,
    replays (outputs (step e (OnSocket s (UserJoin username)) st))
    = [(sock_id s, older ++ [joinMessage e s shown])]
    /\ (length older <= 49)%nat
    /\ exists oldest, messages st = oldest ++ older.
Proof.
  intros Ht. rewrite (replays_join e s username shown st Ht).
  exists (spec_last 49 (messages st)). split; [|split].
  - f_equal. f_equal.
    unfold spec_last. rewrite length_app; simpl. rewrite skipn_app.
    replace (Z.to_nat _ - length (messages st))%nat with 0%nat by lia.
    simpl. f_equal. f_equal. lia.
  - pose proof (spec_last_length 49 (messages st)). lia.
  - apply spec_last_suffix.
Qed.

Lemma join_replay_ends_with_own_notice_witness :
  exists older,
    replays (outputs (step (env_at 1) (OnSocket sockB (UserJoin bob)) lobby))
    = [(sock_id sockB, older ++ [joinMessage (env_at 1) sockB (lit "bob")])]
    /\ (length older <= 49)%nat
    /\ exists oldest, messages lobby = oldest ++ older.
Proof.
  apply (join_replay_ends_with_own_notice (env_at 1) sockB bob (lit "bob")
           lobby).
  reflexivity.
Defined.

(** X21. A join under a name without string conversion registers the name
    and then throws, at the template literal of the notice: nothing is
    appended, written, logged or sent, and nothing catches the exception,
    so the run ends there and no later request is served. *)
Theorem join_without_text_ends_the_run before e s username after st :
  returns (run before st) = true ->
  to_string username = None ->
  let st1 := final_state (run before st) in
  let r := run (before ++ (e, OnSocket s (UserJoin username)) :: after) st in
  returns r = false
  /\ users (final_state r) = obj_set (users st1) (sock_id s) username
  /\ messages (final_state r) = messages st1
  /\ disk (final_state r) = disk st1
  /\ connected (final_state r) = connected st1
  /\ outputs r = outputs (run before st).
Proof.
  intros Hret Ht; cbv zeta.
  assert (E : run (before ++ (e, OnSocket s (UserJoin username)) :: after) st
              = Thrown
                  (lit "TypeError: Cannot convert object to primitive value")
                  (set_users (fun u => obj_set u (sock_id s) username)
                     (final_state (run before st)))
                  (outputs (run before st))).
  { rewrite run_app. unfold bind at 1.
    destruct (run before st) as [[] st1 o1|err st1 o1]; [|discriminate].
    cbn [final_state outputs] in *. cbn [run]. unfold bind at 1. cbn [step].
    rewrite (on_user_join_no_text e s username st1 Ht).
    rewrite app_nil_r; reflexivity. }
  rewrite E. repeat split.
Qed.

Lemma join_without_text_ends_the_run_witness :
  returns
    (run ([(env_at 0, Connection sockA)]
          ++ (env_at 1, OnSocket sockA (UserJoin js_no_text))
             :: [(env_at 2, OnSocket sockA (UserJoin alice))])
       (boot None))
  = false.
Proof.
  apply (join_without_text_ends_the_run
           [(env_at 0, Connection sockA)]
           (env_at 1) sockA js_no_text
           [(env_at 2, OnSocket sockA (UserJoin alice))]
           (boot None)); reflexivity.
Defined.

(** ** Who hears of a disconnect *)

Lemma deliveries_connected st out c name p :
  In (c, name, p) (deliveries st out) -> In c (connected st).
Proof.
  intros H. apply deliveries_iff in H as (sc & _ & Hc).
  destruct sc as [|origin|target]; simpl in Hc.
  - exact Hc.
  - apply filter_In in Hc as [Hc _]; exact Hc.
  - apply filter_In in Hc as [Hc _]; exact Hc.
Qed.

Lemma in_dropped conn c k :
  In c (filter (fun c' => negb (str_eqb c' k)) conn) <-> In c conn /\ c <> k.
Proof.
  rewrite filter_In, negb_true_iff, str_eqb_neq. reflexivity.
Qed.

(** X12. The disconnect of a connection registered under a truthy name
    that converts to a string returns, appends the leave notice, removes
    the entry of that connection and of no other, and tells every client
    still connected, and only those: 'user-left' with the name,
    'system-message' with the notice and 'users-list' with the names that
    remain. *)
Theorem leave_fan_out e s username shown st c name p :
  obj_get (users st) (sock_id s) = Some username ->
  truthy username = true ->
  to_string username = Some shown ->
  let r := step e (OnSocket s Disconnect) st in
  returns r = true
  /\ messages (final_state r) = messages st ++ [leaveMessage e shown]
  /\ obj_get (users (final_state r)) (sock_id s) = None
  /\ (forall c', c' <> sock_id s ->
        obj_get (users (final_state r)) c' = obj_get (users st) c')
  /\ (In (c, name, p) (deliveries (final_state r) (outputs r))
      <-> In c (connected st) /\ c <> sock_id s
          /\ ((name = "user-left"%string /\ p = PValue username)
              \/ (name = "system-message"%string
                  /\ p = PEvent (leaveMessage e shown))
              \/ (name = "users-list"%string
                  /\ p = PValues
                           (obj_values (obj_delete (users st) (sock_id s)))))).
Proof.
  intros Hget Hname Htext; cbv zeta.
  assert (Hr : obj_read (users st) (sock_id s) = username)
    by (unfold obj_read; rewrite Hget; reflexivity).
  assert (Hu : truthy (obj_read (users st) (sock_id s)) = true)
    by (rewrite Hr; exact Hname).
  assert (Ht : to_string (obj_read (users st) (sock_id s)) = Some shown)
    by (rewrite Hr; exact Htext).
  rewrite (step_disconnect_named e s shown st Hu Ht); cbv zeta. rewrite Hr.
  cbn [returns final_state outputs].
  cbn [users messages set_users]. rewrite saved_users, saved_messages.
  cbn [users messages set_messages set_connected].
  split; [reflexivity|]. split; [reflexivity|].
  split; [apply obj_get_delete_same|].
  split; [intros c' Hne; apply obj_get_delete_other; congruence|].
  rewrite deliveries_iff.
  cbn [connected set_users]. rewrite saved_connected.
  cbn [connected set_messages set_connected].
  split.
  - intros (sc & Ho & Hc).
    apply in_app_or in Ho as [Ho|Ho]; [destruct (in_save_log_emit _ _ _ _ Ho)|].
    destruct Ho as [Ho|[Ho|[Ho|[]]]]; injection Ho as <- <- <-.
    + apply recipients_others in Hc as [Hc Hne].
      apply in_dropped in Hc as [Hc _]. auto 6.
    + apply recipients_others in Hc as [Hc Hne].
      apply in_dropped in Hc as [Hc _]. auto 7.
    + simpl in Hc. apply in_dropped in Hc as [Hc Hne]. auto 7.
  - intros (Hc & Hne & [(-> & ->)|[(-> & ->)|(-> & ->)]]).
    + exists (ToOthers (sock_id s)). split.
      * apply in_or_app; right; simpl; auto.
      * apply recipients_others. split; [apply in_dropped|]; auto.
    + exists (ToOthers (sock_id s)). split.
      * apply in_or_app; right; simpl; auto.
      * apply recipients_others. split; [apply in_dropped|]; auto.
    + exists ToAll. split.
      * apply in_or_app; right; simpl; auto.
      * simpl. apply in_dropped; auto.
Qed.

Lemma leave_fan_out_witness :
  In (sock_id sockB, "user-left"%string, PValue alice)
     (deliveries
        (final_state (step (env_at 4) (OnSocket sockA Disconnect) room))
        (outputs (step (env_at 4) (OnSocket sockA Disconnect) room))).
Proof.
  apply (proj2 (proj2 (proj2 (proj2 (proj2
           (leave_fan_out (env_at 4) sockA alice (lit "alice") room
              (sock_id sockB) "user-left" (PValue alice)
              eq_refl eq_refl eq_refl)))))).
  split; [vm_compute; auto|]. split.
  - intro E; vm_compute in E; discriminate E.
  - left; split; reflexivity.
Defined.

(** X13. Every disconnect takes the socket out of the connected set, and
    nothing the handler sends is delivered to the socket that left. It
    returns, unless the registered name is truthy and without string
    conversion, which no join that returned can have left there. When the
    connection has no truthy name in the registry, the handler does
    nothing more: log, registry and file are as they were and nothing is
    sent or logged. *)
Theorem disconnect_is_final e s st :
  let r := step e (OnSocket s Disconnect) st in
  (returns r = true
   <-> truthy (obj_read (users st) (sock_id s)) = false
       \/ to_string (obj_read (users st) (sock_id s)) <> None)
  /\ ~ In (sock_id s) (connected (final_state r))
  /\ (forall c, c <> sock_id s ->
        (In c (connected (final_state r)) <-> In c (connected st)))
  /\ (forall name p,
        ~ In (sock_id s, name, p) (deliveries (final_state r) (outputs r)))
  /\ (truthy (obj_read (users st) (sock_id s)) = false ->
      returns r = true
      /\ messages (final_state r) = messages st
      /\ users (final_state r) = users st
      /\ disk (final_state r) = disk st
      /\ outputs r = []).
Proof.
  cbv zeta.
  assert (Hconn : connected (final_state (step e (OnSocket s Disconnect) st))
                  = filter (fun c => negb (str_eqb c (sock_id s)))
                      (connected st)).
  { destruct (truthy (obj_read (users st) (sock_id s))) eqn:Hu.
    - destruct (to_string (obj_read (users st) (sock_id s)))
        as [shown|] eqn:Ht.
      + rewrite (step_disconnect_named e s shown st Hu Ht); cbv zeta.
        cbn [final_state connected set_users]. rewrite saved_connected.
        reflexivity.
      + rewrite (step_disconnect_no_text e s st Hu Ht). reflexivity.
    - rewrite (step_disconnect_unnamed e s st Hu). reflexivity. }
  assert (Hout : ~ In (sock_id s)
                   (connected (final_state (step e (OnSocket s Disconnect) st)))).
  { rewrite Hconn, in_dropped. tauto. }
  split; [|split; [exact Hout|split; [|split]]].
  - rewrite step_returns. unfold throws, has_text.
    destruct (truthy (obj_read (users st) (sock_id s)));
      destruct (to_string (obj_read (users st) (sock_id s))); simpl;
      split; auto; try (intros _; right; discriminate);
      intros [H|H]; congruence.
  - intros c Hne. rewrite Hconn, in_dropped. tauto.
  - intros name p Hin. apply deliveries_connected in Hin. exact (Hout Hin).
  - intros Hu. rewrite (step_disconnect_unnamed e s st Hu). auto.
Qed.

Lemma disconnect_is_final_witness :
  messages (final_state (step (env_at 4) (OnSocket sockB Disconnect) lobby))
  = messages lobby
  /\ outputs (step (env_at 4) (OnSocket sockB Disconnect) lobby) = [].
Proof.
  destruct (disconnect_is_final (env_at 4) sockB lobby) as (_ & _ & _ & _ & H).
  destruct (H eq_refl) as (_ & Hm & _ & _ & Ho).
  split; assumption.
Defined.

(** ** The registry *)







Lemma obj_set_fresh {V} (o : jsobject V) k v :
  obj_get o k = None -> obj_set o k v = o ++ [(k, v)].
Proof.
  induction o as [|[k' v'] o IH]; simpl; [reflexivity|].
  destruct (str_eqb k' k); [discriminate|].
  intros H; rewrite (IH H); reflexivity.
Qed.

Lemma obj_set_present {V} (o : jsobject V) k v old :
  obj_get o k = Some old ->
  exists before after,
    o = before ++ (k, old) :: after
    /\ obj_get before k = None
    /\ obj_set o k v = before ++ (k, v) :: after.
Proof.
  induction o as [|[k' v'] o IH]; simpl; [discriminate|].
  destruct (str_eqb k' k) eqn:E.
  - apply str_eqb_eq in E; subst k'. intros H; injection H as ->.
    exists [], o; auto.
  - intros H. destruct (IH H) as (before & after & Ho & Hb & Hs).
    exists ((k', v') :: before), after. simpl. rewrite E, Hs.
    rewrite Ho at 1. auto.
Qed.

(** X15. A join registers the name under the socket id and touches no
    other entry, whether or not the handler then goes through. For a
    connection not yet in the registry the name goes to the end of the
    list of names, whether or not somebody already bears it; for a
    connection already there the name is replaced where it stands: the
    entries before it and after it, and so the order of the names, are as
    they were. *)
Theorem join_registers_name e s username st :
  let st' := final_state (step e (OnSocket s (UserJoin username)) st) in
  obj_get (users st') (sock_id s) = Some username
  /\ (forall c, c <> sock_id s ->
        obj_get (users st') c = obj_get (users st) c)
  /\ (obj_get (users st) (sock_id s) = None ->
      users st' = users st ++ [(sock_id s, username)]
      /\ obj_values (users st') = obj_values (users st) ++ [username])
  /\ (forall old,
        obj_get (users st) (sock_id s) = Some old ->
        exists before after,
          users st = before ++ (sock_id s, old) :: after
          /\ obj_get before (sock_id s) = None
          /\ users st' = before ++ (sock_id s, username) :: after
          /\ obj_values (users st)
             = obj_values before ++ old :: obj_values after
          /\ obj_values (users st')
             = obj_values before ++ username :: obj_values after).
Proof.
  cbv zeta. rewrite step_users.
  split; [apply obj_get_set_same|].
  split; [intros c Hne; apply obj_get_set_other; congruence|].
  split.
  - intros H. rewrite (obj_set_fresh _ _ _ H). split; [reflexivity|].
    unfold obj_values. rewrite map_app. reflexivity.
  - intros old H.
    destruct (obj_set_present _ _ username _ H)
      as (before & after & Ho & Hb & Hs).
    exists before, after. rewrite Hs, Ho.
    unfold obj_values. rewrite !map_app. simpl. auto.
Qed.

Lemma join_registers_name_witness :
  obj_values
    (users (final_state (step (env_at 1) (OnSocket sockB (UserJoin alice))
                           lobby)))
  = [alice; alice].
Proof.
  apply (proj2 (proj1 (proj2 (proj2
           (join_registers_name (env_at 1) sockB alice lobby))) eq_refl)).
Defined.

(** X16. 'get-users' needs no join. It returns, changes nothing, and
    sends the names of the registry as they stand to the asking socket
    and to no other. *)
Theorem get_users_answers_the_requester e s st c name p :
  let r := step e (OnSocket s GetUsers) st in
  returns r = true
  /\ final_state r = st
  /\ (In (c, name, p) (deliveries st (outputs r))
      <-> c = sock_id s /\ In c (connected st)
          /\ name = "users-list"%string
          /\ p = PValues (obj_values (users st))).
Proof.
  cbv zeta; cbn [step]. unfold on_get_users. run_handler.
  cbn [returns final_state outputs app].
  split; [reflexivity|]. split; [reflexivity|].
  rewrite deliveries_iff. split.
  - intros (sc & Ho & Hc). apply in_singleton_emit in Ho as (-> & -> & ->).
    apply recipients_one in Hc as [Hc ->]. auto.
  - intros (-> & Hc & -> & ->). exists (ToOne (sock_id s)). split.
    + left; reflexivity.
    + apply recipients_one; auto.
Qed.

(** ** Uploads with a file *)

(** X17. An upload that carries a file returns, whoever sends it and
    whatever name the form gives: it appends one file event with that name
    and a descriptor whose path is "/uploads/" followed by the stored file
    name, leaves the registry alone, and does exactly this, in this order:
    log the write error if the write failed, send 'new-file' with the
    event to all, answer 200 with the descriptor. Each connected client is
    delivered the event once, and nobody else anything. *)
Theorem upload_is_logged_and_announced e f username st :
  let m := File (uuid' e) username (upload_info e f) (now e) in
  let r := step e (PostUpload (Some f) username) st in
  returns r = true
  /\ messages (final_state r) = messages st ++ [m]
  /\ users (final_state r) = users st
  /\ fi_path (upload_info e f) = lit "/uploads/" ++ filename f
  /\ outputs r
     = save_log e
       ++ [Emit ToAll "new-file" (PEvent m);
           Respond 200 (JsonUploaded (upload_info e f))]
  /\ deliveries (final_state r) (outputs r)
     = map (fun c => (c, "new-file"%string, PEvent m)) (connected st).
Proof.
  cbv zeta. rewrite step_upload_stored; cbv zeta.
  cbn [returns final_state outputs].
  rewrite saved_messages, saved_users; cbn [messages users set_messages].
  repeat split.
  unfold deliveries. rewrite flat_map_app, saved_connected.
  cbn [connected set_messages flat_map recipients].
  rewrite app_nil_r.
  unfold save_log; destruct (fs_error e); reflexivity.
Qed.

(** ** The address shown in a join notice *)

Lemma starts_with_app p rest : starts_with p (p ++ rest) = true.
Proof.
  induction p as [|x p IH]; simpl; [reflexivity|].
  rewrite N.eqb_refl; exact IH.
Qed.

Lemma starts_with_split p s :
  starts_with p s = true -> s = p ++ skipn (length p) s.
Proof.
  revert s; induction p as [|x p IH]; intros [|y s]; simpl;
    try reflexivity; try discriminate.
  intros H; apply andb_true_iff in H as [Hx Hp].
  apply N.eqb_eq in Hx; subst y. rewrite <- (IH s Hp); reflexivity.
Qed.

(** X18. The address of a join notice is the remote address of the socket
    with one leading "::ffff:" taken off: an IPv4-mapped address shows as
    the IPv4 address, an address without that prefix shows as it is, and
    in either case the remote address is the shown one, or the prefix
    followed by the shown one. The notice a join appends for a socket with
    an IPv4-mapped address, when the name converts to a string, reads
    "<name> joined the chat (<IPv4>)". *)
Theorem clientIp_strips_mapped_prefix id rest s :
  clientIp {| sock_id := id; remoteAddress := lit "::ffff:" ++ rest |} = rest
  /\ (starts_with (lit "::ffff:") (remoteAddress s) = false ->
      clientIp s = remoteAddress s)
  /\ (remoteAddress s = clientIp s
      \/ remoteAddress s = lit "::ffff:" ++ clientIp s)
  /\ (forall e username shown st,
        to_string username = Some shown ->
        messages
          (final_state
             (step e
                (OnSocket {| sock_id := id;
                             remoteAddress := lit "::ffff:" ++ rest |}
                   (UserJoin username)) st))
        = messages st
          ++ [System (uuid e)
                (shown ++ lit " joined the chat (" ++ rest ++ lit ")")
                (now e)]).
Proof.
  assert (Hstrip :
    clientIp {| sock_id := id; remoteAddress := lit "::ffff:" ++ rest |}
    = rest).
  { unfold clientIp; cbn [remoteAddress].
    rewrite starts_with_app. unfold substring_from.
    change 7%nat with (length (lit "::ffff:")).
    rewrite skipn_app, skipn_all, Nat.sub_diag. reflexivity. }
  split; [exact Hstrip|]. split; [|split].
  - intros H. unfold clientIp; rewrite H; reflexivity.
  - unfold clientIp.
    destruct (starts_with (lit "::ffff:") (remoteAddress s)) eqn:E.
    + right. apply starts_with_split in E. exact E.
    + left; reflexivity.
  - intros e username shown st Ht.
    destruct (step_final e
                (OnSocket {| sock_id := id;
                             remoteAddress := lit "::ffff:" ++ rest |}
                   (UserJoin username)) st) as [Hm _].
    rewrite Hm. cbn [appended]. rewrite Ht. unfold joinMessage.
    rewrite Hstrip. reflexivity.
Qed.

Lemma clientIp_strips_mapped_prefix_witness :
  clientIp sockB = remoteAddress sockB.
Proof.
  apply (proj1 (proj2 (clientIp_strips_mapped_prefix [] [] sockB))).
  reflexivity.
Defined.

(** ** The address printed at start-up *)

Lemma first_external_ipv4_none l :
  first_external_ipv4 l = None <->
  forall net, In net l ->
    family net = lit "IPv4" -> internal net = false -> False.
Proof.
  induction l as [|net l IH]; simpl; [tauto|].
  destruct (str_eqb (family net) (lit "IPv4") && negb (internal net)) eqn:E.
  - apply andb_true_iff in E as [Ef Ei].
    apply str_eqb_eq in Ef. apply negb_true_iff in Ei.
    split; [discriminate|]. intros H. exfalso; apply (H net); auto.
  - rewrite IH. split.
    + intros H net' [<-|Hin] Hf Hi; [|eapply H; eauto].
      apply str_eqb_eq in Hf. rewrite Hf, Hi in E; discriminate.
    + intros H net' Hin; apply H; auto.
Qed.

Lemma first_external_ipv4_some l a :
  first_external_ipv4 l = Some a ->
  exists net, In net l /\ family net = lit "IPv4"
              /\ internal net = false /\ address net = a.
Proof.
  induction l as [|net l IH]; simpl; [discriminate|].
  destruct (str_eqb (family net) (lit "IPv4") && negb (internal net)) eqn:E.
  - apply andb_true_iff in E as [Ef Ei].
    apply str_eqb_eq in Ef. apply negb_true_iff in Ei.
    intros H; injection H as <-. exists net; auto.
  - intros H. destruct (IH H) as (net' & Hin & Hrest). exists net'; auto.
Qed.

Lemma first_external_ipv4_first l1 net l2 :
  first_external_ipv4 l1 = None ->
  family net = lit "IPv4" -> internal net = false ->
  first_external_ipv4 (l1 ++ net :: l2) = Some (address net).
Proof.
  intros H1 Hf Hi. induction l1 as [|n l1 IH]; simpl in *.
  - rewrite Hf, Hi, str_eqb_refl; reflexivity.
  - destruct (str_eqb (family n) (lit "IPv4") && negb (internal n));
      [discriminate|auto].
Qed.

Lemma scan_interfaces_first nets names1 name names2 a :
  (forall n, In n names1 ->
     first_external_ipv4
       (match obj_get nets n with Some l => l | None => [] end) = None) ->
  first_external_ipv4
    (match obj_get nets name with Some l => l | None => [] end) = Some a ->
  scan_interfaces nets (names1 ++ name :: names2) = Some a.
Proof.
  intros H1 Ha. induction names1 as [|n names1 IH]; simpl.
  - rewrite Ha; reflexivity.
  - rewrite (H1 n) by (left; reflexivity). apply IH.
    intros n' Hn'; apply H1; right; exact Hn'.
Qed.

Lemma scan_interfaces_some nets names a :
  scan_interfaces nets names = Some a ->
  exists name l net,
    obj_get nets name = Some l /\ In net l /\ family net = lit "IPv4"
    /\ internal net = false /\ address net = a.
Proof.
  induction names as [|n names IH]; simpl; [discriminate|].
  destruct (first_external_ipv4 _) eqn:E.
  - intros H; injection H as <-.
    apply first_external_ipv4_some in E as (net & Hin & Hrest).
    destruct (obj_get nets n) as [l|] eqn:Hg; [|destruct Hin].
    exists n, l, net; auto.
  - exact IH.
Qed.

Lemma scan_interfaces_none nets names :
  (forall n, In n names ->
     first_external_ipv4
       (match obj_get nets n with Some l => l | None => [] end) = None) ->
  scan_interfaces nets names = None.
Proof.
  induction names as [|n names IH]; simpl; [reflexivity|].
  intros H. rewrite (H n) by (left; reflexivity).
  apply IH. intros n' Hn'; apply H; right; exact Hn'.
Qed.

Lemma obj_get_in {V} (o : jsobject V) k v :
  obj_get o k = Some v -> In (k, v) o.
Proof.
  induction o as [|[k' v'] o IH]; simpl; [discriminate|].
  destruct (str_eqb k' k) eqn:E.
  - apply str_eqb_eq in E; subst k'. intros H; injection H as ->; auto.
  - intros H; right; auto.
Qed.

Lemma obj_get_app_left {V} (o1 o2 : jsobject V) k :
  In k (map fst o1) -> obj_get (o1 ++ o2) k = obj_get o1 k.
Proof.
  induction o1 as [|[k' v'] o1 IH]; simpl; [tauto|].
  destruct (str_eqb k' k) eqn:E; [reflexivity|].
  intros [H|H]; [|exact (IH H)].
  subst k'. rewrite str_eqb_refl in E; discriminate.
Qed.

Lemma obj_get_app_right {V} (o1 o2 : jsobject V) k :
  ~ In k (map fst o1) -> obj_get (o1 ++ o2) k = obj_get o2 k.
Proof.
  induction o1 as [|[k' v'] o1 IH]; simpl; [reflexivity|].
  intros H. destruct (str_eqb k' k) eqn:E.
  - apply str_eqb_eq in E; tauto.
  - apply IH; tauto.
Qed.

(** X19. [getLocalIpAddress] answers with the first address, in the order
    of the interfaces and of their addresses, that is IPv4 and not
    internal; what it answers is always such an address of some interface
    or the fixed placeholder, and it is the placeholder when no interface
    has such an address. *)
Theorem getLocalIpAddress_first_external nets :
  (getLocalIpAddress nets = no_address
   \/ exists name l net,
        obj_get nets name = Some l /\ In net l /\ family net = lit "IPv4"
        /\ internal net = false /\ address net = getLocalIpAddress nets)
  /\ ((forall name l net,
         In (name, l) nets -> In net l ->
         family net = lit "IPv4" -> internal net = false -> False) ->
      getLocalIpAddress nets = no_address)
  /\ (forall before name l1 net l2 rest,
        nets = before ++ (name, l1 ++ net :: l2) :: rest ->
        ~ In name (map fst before) ->
        (forall n l net', In (n, l) before -> In net' l ->
           family net' = lit "IPv4" -> internal net' = false -> False) ->
        (forall net', In net' l1 ->
           family net' = lit "IPv4" -> internal net' = false -> False) ->
        family net = lit "IPv4" -> internal net = false ->
        getLocalIpAddress nets = address net).
Proof.
  unfold getLocalIpAddress. split; [|split].
  - destruct (scan_interfaces nets (map fst nets)) as [a|] eqn:E; [|auto].
    right. exact (scan_interfaces_some _ _ _ E).
  - intros H. rewrite scan_interfaces_none; [reflexivity|].
    intros n _. destruct (obj_get nets n) as [l|] eqn:Hg; [|reflexivity].
    apply first_external_ipv4_none. intros net Hin.
    apply (H n l net); [apply obj_get_in; exact Hg|exact Hin].
  - intros before name l1 net l2 rest -> Hfresh Hbefore Hl1 Hf Hi.
    rewrite map_app; cbn [map fst].
    rewrite (scan_interfaces_first _ (map fst before) name (map fst rest)
               (address net)); [reflexivity| |].
    + intros n Hn. rewrite obj_get_app_left by exact Hn.
      destruct (obj_get before n) as [l|] eqn:Hg; [|reflexivity].
      apply first_external_ipv4_none. intros net' Hin.
      apply (Hbefore n l net'); [apply obj_get_in; exact Hg|exact Hin].
    + rewrite obj_get_app_right by exact Hfresh. simpl.
      rewrite str_eqb_refl.
      apply first_external_ipv4_first; auto.
      apply first_external_ipv4_none; exact Hl1.
Qed.

Lemma getLocalIpAddress_first_external_witness :
  getLocalIpAddress
    [(lit "lo", [loopback]);
     (lit "eth0", [link_local6; lan]);
     (lit "tun0", [vpn])]
  = address lan.
Proof.
  apply (proj2 (proj2 (getLocalIpAddress_first_external
           [(lit "lo", [loopback]);
            (lit "eth0", [link_local6; lan]);
            (lit "tun0", [vpn])]))
         [(lit "lo", [loopback])] (lit "eth0") [link_local6] lan []
         [(lit "tun0", [vpn])]).
  - reflexivity.
  - simpl. intros [H|[]]. vm_compute in H; discriminate H.
  - intros n l net' [H|[]] Hin Hf Hi. injection H as <- <-.
    destruct Hin as [<-|[]]. discriminate Hi.
  - intros net' [<-|[]] Hf Hi. vm_compute in Hf; discriminate Hf.
  - reflexivity.
  - reflexivity.
Defined.

(** ** The maintenance route *)

(** X20. The pull route answers exactly once. It answers 200 only when
    [exec] reports no error and nothing at all came out on stderr, and then
    sends the standard output; an error takes precedence over stderr, and
    either of them gives a 500 that does not carry the standard output. *)
Theorem git_pull_succeeds_only_when_silent error stdout stderr :
  pull_status (git_pull error stdout stderr)
  = [if match error, stderr with None, [] => true | _, _ => false end
     then 200%Z else 500%Z]
  /\ (forall text,
        In (PullSend 200 text) (git_pull error stdout stderr) ->
        error = None /\ stderr = []
        /\ text = lit "Git pull successful:" ++ [10%N] ++ stdout)
  /\ (forall text,
        In (PullSend 500 text) (git_pull error stdout stderr) ->
        match error with
        | Some message => text = lit "Error: " ++ message
        | None => stderr <> [] /\ text = lit "Stderr: " ++ stderr
        end).
Proof.
  destruct error as [message|]; [|destruct stderr as [|c stderr]];
    simpl; (split; [reflexivity|]); split; intros text H;
    repeat (destruct H as [H|H]; try discriminate H);
    try contradiction; try (injection H as <-); auto.
  split; [discriminate|reflexivity].
Qed.

Lemma git_pull_succeeds_only_when_silent_witness :
  pull_status (git_pull None (lit "Already up to date.") (lit "From origin"))
  = [500%Z].
Proof.
  apply (proj1 (git_pull_succeeds_only_when_silent None
                  (lit "Already up to date.") (lit "From origin"))).
Defined.

Lemma get_users_answers_the_requester_witness :
  In (sock_id sockB, "users-list"%string, PValues [alice])
     (deliveries lobby (outputs (step (env_at 2) (OnSocket sockB GetUsers) lobby))).
Proof.
  apply (proj2 (proj2 (proj2
           (get_users_answers_the_requester (env_at 2) sockB lobby
              (sock_id sockB) "users-list" (PValues [alice]))))).
  split; [reflexivity|]. split; [vm_compute; auto|].
  split; reflexivity.
Defined.
